(** * Network shapes and parameter counts of the two notebooks

    A shallow embedding of [notebooks/1.0-vgg-19.ipynb] (class [VGG19]) and
    [notebooks/1.2-mobile-net.ipynb] (classes [DepthwiseSeparableConv] and
    [MobileNet]).

    The notebooks only compose layers of the tensor framework.  The layers
    are embedded as records holding their constructor arguments; what a layer
    does to the size of a tensor follows the framework's documented size
    rules; the floating-point contents of tensors stay abstract.  The
    [forward] methods are written once, over an interface of layer
    operations ([Torch]), and read at three instances: sizes only
    ([Torch_size]), which is how the layers act on tensors in the default
    memory layout; sizes with the memory layout ([Torch_meta]), on which
    [x.view] depends; and an execution against a store of weights
    ([Torch_exec]). *)

From Stdlib Require Import QArith.
From stdpp Require Import base strings list gmap pretty numbers.

Open Scope N_scope.

(** ** Sizes and errors *)

(** [torch.Size]: a list of non-negative dimensions. *)
Definition Size : Type := list N.

Definition numel (s : Size) : N := foldr N.mul 1 s.

(** What the framework raises.  [At name e] is the error [e] raised inside
    the child module [name], as the traceback shows it. *)
Inductive Error : Type :=
  | BadRank (ndim : nat)
  | ChannelMismatch (expected got : N)
  | BadStride
  | WeightGroups (out_channels groups : N)
  | GroupsNotPositive
  | NotDivisibleByGroups (channels groups : N)
  | KernelTooLarge (padded_h padded_w kernel : N)
  | OutputTooSmall (h w : N)
  | EmptyInput
  | MatMulMismatch (rows cols in_features out_features : N)
  | ViewAmbiguous
  | ViewInvalid (numel : N)
  | ViewManyInferred
  | ViewStride
  | IndexOutOfRange (dim : nat)
  | MissingKey (key : string)
  | At (name : string) (e : Error).

Definition Res (A : Type) : Type := Error + A.

Definition wrap {A} (name : string) (r : Res A) : Res A :=
  match r with
  | inl e => inl (At name e)
  | inr a => inr a
  end.

(** ** Layers of [torch.nn] *)

Module nn.

(** [nn.Conv2d(in_channels, out_channels, kernel_size, stride=1,
    padding=0, groups=1)], square kernel, dilation 1, with bias. *)
Record Conv2d : Type := mkConv2d {
  in_channels : N;
  out_channels : N;
  kernel_size : N;
  stride : N;
  padding : N;
  groups : N
}.

(** [nn.MaxPool2d(kernel_size, stride)], no padding, floor mode. *)
Record MaxPool2d : Type := mkMaxPool2d {
  pool_kernel_size : N;
  pool_stride : N
}.

(** [nn.Linear(in_features, out_features)], with bias. *)
Record Linear : Type := mkLinear {
  in_features : N;
  out_features : N
}.

(** [nn.Dropout(p)]. *)
Record Dropout : Type := mkDropout { p : Q }.

(** [nn.AdaptiveAvgPool2d(output_size)], square output. *)
Record AdaptiveAvgPool2d : Type := mkAdaptiveAvgPool2d { output_size : N }.

(** The modules that occur as children of an [nn.Sequential]. *)
Inductive Layer : Type :=
  | LConv2d (c : Conv2d)
  | LReLU
  | LMaxPool2d (m : MaxPool2d)
  | LLinear (l : Linear)
  | LDropout (d : Dropout).

Definition Sequential : Type := list Layer.

(** Defaults of the constructors. *)
Definition default_stride : N := 1.
Definition default_padding : N := 0.
Definition default_groups : N := 1.

End nn.

Import nn.

(** ** Size rules of the layers *)

(** One spatial dimension of a convolution or pooling window:
    [floor((n + 2*pad - k) / s) + 1]. *)
Definition window_out (n k s pad : N) : N := (n + 2 * pad - k) / s + 1.

(** What the constructor of [nn.Conv2d] refuses, in its order: the
    [ValueError]s of [__init__]. *)
Definition Conv2d_check (c : Conv2d) : Res Conv2d :=
  if groups c =? 0 then inl GroupsNotPositive
  else if negb (in_channels c mod groups c =? 0)
       then inl (NotDivisibleByGroups (in_channels c) (groups c))
  else if negb (out_channels c mod groups c =? 0)
       then inl (NotDivisibleByGroups (out_channels c) (groups c))
  else inr c.

(** Conv2d takes [(N, C_in, H, W)] or the unbatched [(C_in, H, W)].  The
    checks of a call, in the order in which the framework makes them: the
    rank, the stride, the weight against the groups (its first dimension,
    [out_channels], is at least [groups] and a multiple of it), the
    channels of the input, the kernel against the padded input. *)
Definition conv2d_size (c : Conv2d) (x : Size) : Res Size :=
  let k := kernel_size c in
  let s := stride c in
  let pd := padding c in
  let go (lead : list N) (ch h w : N) : Res Size :=
    if s =? 0 then inl BadStride
    else if (out_channels c <? groups c) || negb (out_channels c mod groups c =? 0)
         then inl (WeightGroups (out_channels c) (groups c))
    else if negb (ch =? in_channels c) then inl (ChannelMismatch (in_channels c) ch)
    else if (h + 2 * pd <? k) || (w + 2 * pd <? k)
         then inl (KernelTooLarge (h + 2 * pd) (w + 2 * pd) k)
    else inr (lead ++ [out_channels c; window_out h k s pd; window_out w k s pd]) in
  match x with
  | [n; ch; h; w] => go [n] ch h w
  | [ch; h; w] => go [] ch h w
  | _ => inl (BadRank (length x))
  end.

(** MaxPool2d: the channel and the spatial dimensions must not be empty, and
    a window must fit ("Output size is too small" otherwise). *)
Definition max_pool2d_size (m : MaxPool2d) (x : Size) : Res Size :=
  let k := pool_kernel_size m in
  let s := pool_stride m in
  let go (lead : list N) (ch h w : N) : Res Size :=
    if (ch =? 0) || (h =? 0) || (w =? 0) then inl EmptyInput
    else if s =? 0 then inl BadStride
    else if (h <? k) || (w <? k) then inl (OutputTooSmall h w)
    else inr (lead ++ [ch; window_out h k s 0; window_out w k s 0]) in
  match x with
  | [n; ch; h; w] => go [n] ch h w
  | [ch; h; w] => go [] ch h w
  | _ => inl (BadRank (length x))
  end.

(** AdaptiveAvgPool2d.  With [output_size = 1] it is the mean over the last
    two dimensions, kept as dimensions of size 1: any tensor of rank 2 or
    more goes through, an empty one too.  Otherwise a tensor of rank 4 or 3
    whose other dimensions than the batch are not empty goes to
    [output_size x output_size]. *)
Definition adaptive_avg_pool2d_size (a : AdaptiveAvgPool2d) (x : Size) : Res Size :=
  let o := output_size a in
  if o =? 1 then
    match reverse x with
    | _ :: _ :: lead => inr (reverse lead ++ [1; 1])
    | _ => inl (BadRank (length x))
    end
  else
    match x with
    | [n; ch; h; w] =>
        if (ch =? 0) || (h =? 0) || (w =? 0) then inl EmptyInput
        else inr [n; ch; o; o]
    | [ch; h; w] =>
        if (h =? 0) || (w =? 0) then inl EmptyInput else inr [ch; o; o]
    | _ => inl (BadRank (length x))
    end.

(** Linear acts on the last dimension, which must be [in_features]. *)
Definition linear_size (l : Linear) (x : Size) : Res Size :=
  match reverse x with
  | [] => inl (BadRank 0)
  | last :: lead =>
      if last =? in_features l then inr (reverse lead ++ [out_features l])
      else inl (MatMulMismatch (numel lead) last (in_features l) (out_features l))
  end.

(** [x.size(dim)]. *)
Definition size_at (x : Size) (dim : nat) : Res N :=
  match x !! dim with
  | Some d => inr d
  | None => inl (IndexOutOfRange dim)
  end.

(** [x.view(d0, d1, ...)] on a contiguous tensor; [-1] marks the one
    dimension that is inferred from the number of elements. *)
Definition view_size (shape : list Z) (x : Size) : Res Size :=
  let known := filter (λ d, d ≠ (-1)%Z) shape in
  let newsize := foldr N.mul 1 (Z.to_N <$> known) in
  let n := numel x in
  if existsb (λ d, d <? -1)%Z shape then inl (ViewInvalid n) else
  match (length shape - length known)%nat with
  | 0%nat =>
      if n =? newsize then inr (Z.to_N <$> shape) else inl (ViewInvalid n)
  | 1%nat =>
      if (n =? newsize) || ((0 <? newsize) && (n mod newsize =? 0)) then
        if newsize =? 0 then inl ViewAmbiguous
        else inr ((λ d, if decide (d = (-1)%Z) then n / newsize else Z.to_N d) <$> shape)
      else inl (ViewInvalid n)
  | _ => inl ViewManyInferred
  end.

(** ** The interface of layer operations

    What [forward] needs from the framework: sequencing of calls that may
    raise ([op_ret], [op_bind]), the call of each kind of layer on a tensor,
    and the two tensor methods the notebooks use.  [path] is the qualified
    name of the layer, under which its weights are stored
    ("feature_extractor.0"); [op_at name] marks the call of the child
    [name]. *)
Class Torch (M : Type → Type) (T : Type) : Type := {
  op_ret : ∀ {A}, A → M A;
  op_bind : ∀ {A B}, M A → (A → M B) → M B;
  op_at : ∀ {A}, string → M A → M A;
  op_conv2d : string → Conv2d → T → M T;
  op_relu : T → M T;
  op_max_pool2d : MaxPool2d → T → M T;
  op_adaptive_avg_pool2d : AdaptiveAvgPool2d → T → M T;
  op_linear : string → Linear → T → M T;
  op_dropout : Dropout → T → M T;
  op_size : T → nat → M N;
  op_view : list Z → T → M T
}.

Notation "x <- c1 ;; c2" := (op_bind c1 (λ x, c2))
  (at level 100, c1 at next level, right associativity).

(** Qualified name of a child. *)
Definition child (path name : string) : string :=
  if String.eqb path "" then name else path +:+ "." +:+ name.

Section Forward.
Context {M : Type → Type} {T : Type} `{!Torch M T}.

Definition Layer_forward (path : string) (l : Layer) (x : T) : M T :=
  match l with
  | LConv2d c => op_conv2d path c x
  | LReLU => op_relu x
  | LMaxPool2d m => op_max_pool2d m x
  | LLinear l => op_linear path l x
  | LDropout d => op_dropout d x
  end.

(** [nn.Sequential.forward]: the children in order, named by their index
    from [i] on. *)
Fixpoint Sequential_forward_from (i : nat) (path : string)
    (self : Sequential) (x : T) : M T :=
  match self with
  | [] => op_ret x
  | l :: rest =>
      x <- op_at (pretty i) (Layer_forward (child path (pretty i)) l x) ;;
      Sequential_forward_from (S i) path rest x
  end.

Definition Sequential_forward : string → Sequential → T → M T :=
  Sequential_forward_from 0.

End Forward.

(** ** Notebook 1.0: VGG19 *)

Module VGG19.

Record t : Type := mk {
  feature_extractor : Sequential;
  classifier : Sequential
}.

(** [nn.Conv2d(i, o, kernel_size=3, padding=1)] *)
Definition conv (i o : N) : Layer :=
  LConv2d (mkConv2d i o 3 default_stride 1 default_groups).

(** [nn.MaxPool2d(kernel_size=2, stride=2)] *)
Definition pool : Layer := LMaxPool2d (mkMaxPool2d 2 2).

Definition __init__ (num_classes : N) : t := {|
  feature_extractor := [
    conv 3 64; LReLU;
    conv 64 64; LReLU;
    pool;
    conv 64 128; LReLU;
    conv 128 128; LReLU;
    pool;
    conv 128 256; LReLU;
    pool;
    conv 256 256; LReLU;
    conv 256 256; LReLU;
    conv 256 256; LReLU;
    pool;
    conv 256 512; LReLU;
    conv 512 512; LReLU;
    conv 512 512; LReLU;
    conv 512 512; LReLU;
    pool
  ];
  classifier := [
    LLinear (mkLinear (512 * 7 * 7) 4096);
    LReLU;
    LDropout (mkDropout (1 # 2));
    LLinear (mkLinear 4096 4096);
    LReLU;
    LDropout (mkDropout (1 # 2));
    LLinear (mkLinear 4096 num_classes)
  ]
|}.

Definition default_num_classes : N := 1000.

Section Forward.
Context {M : Type → Type} {T : Type} `{!Torch M T}.

(** The three statements of [forward], one by one. *)
Definition features (self : t) (x : T) : M T :=
  op_at "feature_extractor"
    (Sequential_forward "feature_extractor" (feature_extractor self) x).

Definition flatten (x : T) : M T :=
  n <- op_size x 0 ;; op_view [Z.of_N n; -1]%Z x.

Definition classify (self : t) (x : T) : M T :=
  op_at "classifier"
    (Sequential_forward "classifier" (classifier self) x).

Definition forward (self : t) (x : T) : M T :=
  x <- features self x ;;
  x <- flatten x ;;
  x <- classify self x ;;
  op_ret x.

End Forward.

End VGG19.

(** ** Notebook 1.2: DepthwiseSeparableConv and MobileNet *)

Module DepthwiseSeparableConv.

Record t : Type := mk {
  depthwise : Conv2d;
  pointwise : Conv2d
}.

(** The attributes that [__init__] assigns. *)
Definition __init__ (in_channels out_channels stride : N) : t := {|
  depthwise := mkConv2d in_channels in_channels 3 stride 1 in_channels;
  pointwise := mkConv2d in_channels out_channels 1 1 0 default_groups
|}.

(** [DepthwiseSeparableConv(in_channels, out_channels, stride)] as a call:
    each [nn.Conv2d(...)] checks its arguments when it is built, the
    depthwise layer first, and raises where it refuses them; [__init__]
    is what the call returns when neither does. *)
Definition construct (in_channels out_channels stride : N) : Res t :=
  let self := __init__ in_channels out_channels stride in
  match Conv2d_check (depthwise self) with
  | inl e => inl e
  | inr _ =>
      match Conv2d_check (pointwise self) with
      | inl e => inl e
      | inr _ => inr self
      end
  end.

Section Forward.
Context {M : Type → Type} {T : Type} `{!Torch M T}.

Definition forward (path : string) (self : t) (x : T) : M T :=
  x <- op_at "depthwise" (op_conv2d (child path "depthwise") (depthwise self) x) ;;
  x <- op_at "pointwise" (op_conv2d (child path "pointwise") (pointwise self) x) ;;
  op_ret x.

End Forward.

End DepthwiseSeparableConv.

Module MobileNet.

Record t : Type := mk {
  conv1 : Conv2d;
  dw_conv2 : DepthwiseSeparableConv.t;
  dw_conv3 : DepthwiseSeparableConv.t;
  dw_conv4 : DepthwiseSeparableConv.t;
  dw_conv5 : DepthwiseSeparableConv.t;
  dw_conv6 : DepthwiseSeparableConv.t;
  dw_conv7 : DepthwiseSeparableConv.t;
  dw_conv8 : DepthwiseSeparableConv.t;
  dw_conv9 : DepthwiseSeparableConv.t;
  dw_conv10 : DepthwiseSeparableConv.t;
  dw_conv11 : DepthwiseSeparableConv.t;
  dw_conv12 : DepthwiseSeparableConv.t;
  dw_conv13 : DepthwiseSeparableConv.t;
  dw_conv14 : DepthwiseSeparableConv.t;
  avg_pool : AdaptiveAvgPool2d;
  fc : Linear
}.

Definition __init__ (num_classes : N) : t := {|
  conv1 := mkConv2d 3 32 3 2 1 default_groups;
  (* MobileNet body *)
  dw_conv2 := DepthwiseSeparableConv.__init__ 32 64 1;
  dw_conv3 := DepthwiseSeparableConv.__init__ 64 128 2;
  dw_conv4 := DepthwiseSeparableConv.__init__ 128 128 1;
  dw_conv5 := DepthwiseSeparableConv.__init__ 128 256 2;
  dw_conv6 := DepthwiseSeparableConv.__init__ 256 256 1;
  dw_conv7 := DepthwiseSeparableConv.__init__ 256 512 2;
  (* 5 depthwise separable convolutions with stride 1 *)
  dw_conv8 := DepthwiseSeparableConv.__init__ 512 512 1;
  dw_conv9 := DepthwiseSeparableConv.__init__ 512 512 1;
  dw_conv10 := DepthwiseSeparableConv.__init__ 512 512 1;
  dw_conv11 := DepthwiseSeparableConv.__init__ 512 512 1;
  dw_conv12 := DepthwiseSeparableConv.__init__ 512 512 1;
  dw_conv13 := DepthwiseSeparableConv.__init__ 512 1024 2;
  dw_conv14 := DepthwiseSeparableConv.__init__ 1024 1024 1;
  avg_pool := mkAdaptiveAvgPool2d 1;
  fc := mkLinear 1024 num_classes
|}.

Definition default_num_classes : N := 1000.

(** The child modules, as [named_children()] lists them: in the order in
    which [__init__] assigns them. *)
Inductive Child : Type :=
  | CConv2d (c : Conv2d)
  | CDepthwiseSeparableConv (d : DepthwiseSeparableConv.t)
  | CAdaptiveAvgPool2d (a : AdaptiveAvgPool2d)
  | CLinear (l : Linear).

(** The children assigned under the comment "MobileNet body", up to the
    pooling layer. *)
Definition body (self : t) : list (string * Child) := [
  ("dw_conv2", CDepthwiseSeparableConv (dw_conv2 self));
  ("dw_conv3", CDepthwiseSeparableConv (dw_conv3 self));
  ("dw_conv4", CDepthwiseSeparableConv (dw_conv4 self));
  ("dw_conv5", CDepthwiseSeparableConv (dw_conv5 self));
  ("dw_conv6", CDepthwiseSeparableConv (dw_conv6 self));
  ("dw_conv7", CDepthwiseSeparableConv (dw_conv7 self));
  ("dw_conv8", CDepthwiseSeparableConv (dw_conv8 self));
  ("dw_conv9", CDepthwiseSeparableConv (dw_conv9 self));
  ("dw_conv10", CDepthwiseSeparableConv (dw_conv10 self));
  ("dw_conv11", CDepthwiseSeparableConv (dw_conv11 self));
  ("dw_conv12", CDepthwiseSeparableConv (dw_conv12 self));
  ("dw_conv13", CDepthwiseSeparableConv (dw_conv13 self));
  ("dw_conv14", CDepthwiseSeparableConv (dw_conv14 self))
].

Definition named_children (self : t) : list (string * Child) :=
  [("conv1", CConv2d (conv1 self))] ++ body self ++
  [("avg_pool", CAdaptiveAvgPool2d (avg_pool self)); ("fc", CLinear (fc self))].

Section Forward.
Context {M : Type → Type} {T : Type} `{!Torch M T}.

(** [self.dw_convK(x)] *)
Definition dw (name : string) (d : DepthwiseSeparableConv.t) (x : T) : M T :=
  op_at name (DepthwiseSeparableConv.forward name d x).

(** The statements of [forward] up to the pooling layer. *)
Definition convolutions (self : t) (x : T) : M T :=
  x <- op_at "conv1" (op_conv2d "conv1" (conv1 self) x) ;;
  x <- op_relu x ;;

  x <- dw "dw_conv2" (dw_conv2 self) x ;;
  x <- op_relu x ;;
  x <- dw "dw_conv3" (dw_conv3 self) x ;;
  x <- op_relu x ;;
  x <- dw "dw_conv4" (dw_conv4 self) x ;;
  x <- op_relu x ;;
  x <- dw "dw_conv5" (dw_conv5 self) x ;;
  x <- op_relu x ;;
  x <- dw "dw_conv6" (dw_conv6 self) x ;;
  x <- op_relu x ;;
  x <- dw "dw_conv7" (dw_conv7 self) x ;;
  x <- op_relu x ;;

  x <- dw "dw_conv8" (dw_conv8 self) x ;;
  x <- op_relu x ;;
  x <- dw "dw_conv9" (dw_conv9 self) x ;;
  x <- op_relu x ;;
  x <- dw "dw_conv10" (dw_conv10 self) x ;;
  x <- op_relu x ;;
  x <- dw "dw_conv11" (dw_conv11 self) x ;;
  x <- op_relu x ;;
  x <- dw "dw_conv12" (dw_conv12 self) x ;;
  x <- op_relu x ;;

  x <- dw "dw_conv13" (dw_conv13 self) x ;;
  x <- op_relu x ;;
  x <- dw "dw_conv14" (dw_conv14 self) x ;;
  x <- op_relu x ;;
  op_ret x.

Definition flatten (x : T) : M T :=
  n <- op_size x 0 ;; op_view [Z.of_N n; -1]%Z x.

Definition forward (self : t) (x : T) : M T :=
  x <- convolutions self x ;;
  x <- op_at "avg_pool" (op_adaptive_avg_pool2d (avg_pool self) x) ;;
  x <- flatten x ;;
  x <- op_at "fc" (op_linear "fc" (fc self) x) ;;
  op_ret x.

End Forward.

End MobileNet.

(** ** Reading [forward] on sizes *)

#[export] Instance Torch_size : Torch Res Size := {|
  op_ret A a := inr a;
  op_bind A B m f := match m with inl e => inl e | inr a => f a end;
  op_at A name m := wrap name m;
  op_conv2d _ c x := conv2d_size c x;
  op_relu x := inr x;
  op_max_pool2d m x := max_pool2d_size m x;
  op_adaptive_avg_pool2d a x := adaptive_avg_pool2d_size a x;
  op_linear _ l x := linear_size l x;
  op_dropout _ x := inr x;
  op_size x dim := size_at x dim;
  op_view shape x := view_size shape x
|}.

Definition VGG19_features_size (self : VGG19.t) (x : Size) : Res Size :=
  VGG19.features self x.
Definition VGG19_forward_size (self : VGG19.t) (x : Size) : Res Size :=
  VGG19.forward self x.
Definition VGG19_flatten_size (x : Size) : Res Size :=
  VGG19.flatten x.
Definition VGG19_classify_size (self : VGG19.t) (x : Size) : Res Size :=
  VGG19.classify self x.
Definition DepthwiseSeparableConv_forward_size (path : string)
    (self : DepthwiseSeparableConv.t) (x : Size) : Res Size :=
  DepthwiseSeparableConv.forward path self x.
Definition MobileNet_convolutions_size (self : MobileNet.t) (x : Size) : Res Size :=
  MobileNet.convolutions self x.
Definition MobileNet_flatten_size (x : Size) : Res Size :=
  MobileNet.flatten x.
Definition MobileNet_forward_size (self : MobileNet.t) (x : Size) : Res Size :=
  MobileNet.forward self x.

(** ** Reading [forward] on sizes and memory layouts

    The size rules above depend on the size of a tensor alone, with one
    exception: [x.view] also depends on how the tensor is laid out in
    memory.  [view_size] is the rule for a tensor in the default
    (contiguous) layout, which is what [torch.randn] returns.  The reading
    below carries the layout along with the size. *)

(** The strides of a dense tensor: [torch.contiguous_format],
    [torch.channels_last] (rank 4 only), or the strides a view has left. *)
Inductive Layout : Type :=
  | Contiguous
  | ChannelsLast
  | Strided (strides : list N).

Record Meta : Type := mkMeta {
  m_size : Size;
  m_layout : Layout
}.

Fixpoint contiguous_strides (s : Size) : list N :=
  match s with
  | [] => []
  | _ :: rest => foldr (λ d acc, N.max d 1 * acc) 1 rest :: contiguous_strides rest
  end.

Definition channels_last_strides (s : Size) : list N :=
  match s with
  | [_; c; h; w] => [h * w * c; 1; w * c; c]
  | _ => contiguous_strides s
  end.

(** [x.stride()]. *)
Definition strides (x : Meta) : list N :=
  match m_layout x with
  | Contiguous => contiguous_strides (m_size x)
  | ChannelsLast => channels_last_strides (m_size x)
  | Strided st => st
  end.

(** The loop shared by the two contiguity tests: the dimensions from the
    fastest one on, each as (size, stride); dimensions of size 1 are
    skipped. *)
Fixpoint contiguous_from (dims : list (N * N)) (expected : N) : bool :=
  match dims with
  | [] => true
  | (d, st) :: rest =>
      if d =? 1 then contiguous_from rest expected
      else (st =? expected) && contiguous_from rest (expected * d)
  end.

(** [x.is_contiguous()]. *)
Definition is_contiguous (x : Meta) : bool :=
  match m_layout x with
  | Contiguous => true
  | _ =>
      (numel (m_size x) =? 0)
      || contiguous_from (reverse (zip (m_size x) (strides x))) 1
  end.

(** [x.is_contiguous(memory_format=torch.channels_last)]: the dimensions
    in the order 1, 3, 2, 0. *)
Definition is_channels_last_contiguous (x : Meta) : bool :=
  match m_size x, strides x with
  | [n; c; h; w], [sn; sc; sh; sw] =>
      contiguous_from [(c, sc); (w, sw); (h, sh); (n, sn)] 1
  | _, _ => false
  end.

(** The loop of the framework's test for strides that look like
    channels-last, over the dimensions 1, 3, 2, 0 as (is it dimension 0,
    size, stride); [stride1] is the stride of dimension 1. *)
Fixpoint channels_last_from (dims : list (bool * N * N)) (min stride1 : N) : bool :=
  match dims with
  | [] => true
  | (first, d, st) :: rest =>
      if d =? 0 then false
      else if st <? min then false
      else if first && (min =? stride1) then false
      else channels_last_from rest (if 1 <? d then st * d else st) stride1
  end.

Definition is_channels_last_strides_2d (s : Size) (st : list N) : bool :=
  match s, st with
  | [n; c; h; w], [sn; sc; sh; sw] =>
      if sc =? 0 then false
      else channels_last_from
             [(false, c, sc); (false, w, sw); (false, h, sh); (true, n, sn)] 0 sc
  | _, _ => false
  end.

(** [x.suggest_memory_format()]. *)
Definition suggest_memory_format (x : Meta) : Layout :=
  match m_layout x with
  | Contiguous => Contiguous
  | _ =>
      if is_channels_last_strides_2d (m_size x) (strides x) then ChannelsLast
      else Contiguous
  end.

(** The result of a convolution or a pooling is a new tensor of size [s] in
    the memory format the input suggests. *)
Definition like_input (x : Meta) (r : Res Size) : Res Meta :=
  match r with
  | inl e => inl e
  | inr s => inr (mkMeta s (suggest_memory_format x))
  end.

(** The result of an elementwise operation: contiguous when the input is,
    channels-last when the input is channels-last contiguous, and with the
    strides of the input otherwise. *)
Definition elementwise (x : Meta) : Meta :=
  if is_contiguous x then mkMeta (m_size x) Contiguous
  else if is_channels_last_contiguous x then mkMeta (m_size x) ChannelsLast
  else x.

(** The result of [nn.Linear] is a new contiguous tensor. *)
Definition contiguous (s : Size) : Meta := mkMeta s Contiguous.

Definition in_contiguous (r : Res Size) : Res Meta :=
  match r with
  | inl e => inl e
  | inr s => inr (contiguous s)
  end.

(** The reading on sizes and layouts [m'] gives what the reading on sizes
    [m] gives, and as a contiguous tensor. *)
Definition stays_contiguous (m' : Res Meta) (m : Res Size) : Prop :=
  m' = in_contiguous m.

(** The strides of [x.view(newshape)], when the view exists: the
    framework's [computeStride].  The dimensions of the tensor are grouped
    into chunks that are contiguous in memory, from the last dimension on;
    at the end of each chunk the view has to have dimensions of the same
    number of elements.  [consume] is the inner loop, over the remaining
    dimensions of the view (last first); [chunks] is the outer loop, over the
    dimensions of the tensor (last first) as (size, stride). *)
Fixpoint consume (view : list N) (view_numel tensor_numel base : N)
    (newstride : list N) : list N * N * list N :=
  match view with
  | d :: rest =>
      if (view_numel <? tensor_numel) || (d =? 1)
      then consume rest (view_numel * d) tensor_numel base
             (view_numel * base :: newstride)
      else (view, view_numel, newstride)
  | [] => ([], view_numel, newstride)
  end.

Fixpoint chunks (old : list (N * N)) (view : list N) (tensor_numel base : N)
    (newstride : list N) : option (list N) :=
  match old with
  | [] => None
  | (d, _) :: rest =>
      let tensor_numel := tensor_numel * d in
      match rest with
      | [] =>
          let '(view, view_numel, newstride) :=
            consume view 1 tensor_numel base newstride in
          if negb (view_numel =? tensor_numel) then None
          else match view with [] => Some newstride | _ => None end
      | (d', st') :: _ =>
          if negb (d' =? 1) && negb (st' =? tensor_numel * base) then
            let '(view, view_numel, newstride) :=
              consume view 1 tensor_numel base newstride in
            if negb (view_numel =? tensor_numel) then None
            else chunks rest view 1 st' newstride
          else chunks rest view tensor_numel base newstride
      end
  end.

Definition compute_stride (oldshape oldstride newshape : list N) : option (list N) :=
  match oldshape with
  | [] => Some (replicate (length newshape) 1)
  | _ =>
      if numel oldshape =? 0 then
        if decide (oldshape = newshape) then Some oldstride
        else Some (contiguous_strides newshape)
      else chunks (reverse (zip oldshape oldstride)) (reverse newshape)
             1 (default 0 (list.last oldstride)) []
  end.

Definition layout_of (s : Size) (st : list N) : Layout :=
  if decide (st = contiguous_strides s) then Contiguous
  else if decide (length s = 4%nat ∧ st = channels_last_strides s) then ChannelsLast
  else Strided st.

(** [x.view(d0, d1, ...)]: the new size is that of [view_size]; a
    contiguous tensor can always be viewed, any other one only when
    [compute_stride] finds strides for the new size. *)
Definition view_meta (shape : list Z) (x : Meta) : Res Meta :=
  match view_size shape (m_size x) with
  | inl e => inl e
  | inr s =>
      match m_layout x with
      | Contiguous => inr (contiguous s)
      | _ =>
          match compute_stride (m_size x) (strides x) s with
          | Some st => inr (mkMeta s (layout_of s st))
          | None => inl ViewStride
          end
      end
  end.

#[export] Instance Torch_meta : Torch Res Meta := {|
  op_ret A a := inr a;
  op_bind A B m f := match m with inl e => inl e | inr a => f a end;
  op_at A name m := wrap name m;
  op_conv2d _ c x := like_input x (conv2d_size c (m_size x));
  op_relu x := inr (elementwise x);
  op_max_pool2d m x := like_input x (max_pool2d_size m (m_size x));
  op_adaptive_avg_pool2d a x := like_input x (adaptive_avg_pool2d_size a (m_size x));
  op_linear _ l x := in_contiguous (linear_size l (m_size x));
  op_dropout _ x := inr (elementwise x);
  op_size x dim := size_at (m_size x) dim;
  op_view shape x := view_meta shape x
|}.

Definition VGG19_features_meta (self : VGG19.t) (x : Meta) : Res Meta :=
  VGG19.features self x.
Definition VGG19_flatten_meta (x : Meta) : Res Meta :=
  VGG19.flatten x.
Definition VGG19_classify_meta (self : VGG19.t) (x : Meta) : Res Meta :=
  VGG19.classify self x.
Definition VGG19_forward_meta (self : VGG19.t) (x : Meta) : Res Meta :=
  VGG19.forward self x.
Definition MobileNet_flatten_meta (x : Meta) : Res Meta :=
  MobileNet.flatten x.
Definition MobileNet_forward_meta (self : MobileNet.t) (x : Meta) : Res Meta :=
  MobileNet.forward self x.

(** One spatial dimension through the fourteen convolution modules of
    MobileNet: strides 2, 1, 2, 1, 2, 1, 2, 1, 1, 1, 1, 1, 2, 1. *)
Definition MobileNet_spatial (h : N) : N :=
  foldl (λ h s, window_out h 3 s 1) h [2; 1; 2; 1; 2; 1; 2; 1; 1; 1; 1; 1; 2; 1].

(** ** Parameters

    What a layer registers with [nn.Parameter] when it is constructed: a
    weight and a bias, both with [requires_grad=True] (the default; no cell
    of the notebooks changes it). *)

Record NamedParameter : Type := mkParameter {
  p_name : string;
  p_size : Size;
  requires_grad : bool
}.

Definition Conv2d_parameters (path : string) (c : Conv2d) : list NamedParameter := [
  mkParameter (child path "weight")
    [out_channels c; in_channels c / groups c; kernel_size c; kernel_size c] true;
  mkParameter (child path "bias") [out_channels c] true
].

Definition Linear_parameters (path : string) (l : Linear) : list NamedParameter := [
  mkParameter (child path "weight") [out_features l; in_features l] true;
  mkParameter (child path "bias") [out_features l] true
].

Definition Layer_parameters (path : string) (l : Layer) : list NamedParameter :=
  match l with
  | LConv2d c => Conv2d_parameters path c
  | LLinear l => Linear_parameters path l
  | LReLU | LMaxPool2d _ | LDropout _ => []
  end.

Fixpoint Sequential_parameters_from (i : nat) (path : string)
    (self : Sequential) : list NamedParameter :=
  match self with
  | [] => []
  | l :: rest =>
      Layer_parameters (child path (pretty i)) l ++
      Sequential_parameters_from (S i) path rest
  end.

Definition Sequential_parameters : string → Sequential → list NamedParameter :=
  Sequential_parameters_from 0.

Definition DepthwiseSeparableConv_parameters (path : string)
    (d : DepthwiseSeparableConv.t) : list NamedParameter :=
  Conv2d_parameters (child path "depthwise") (DepthwiseSeparableConv.depthwise d) ++
  Conv2d_parameters (child path "pointwise") (DepthwiseSeparableConv.pointwise d).

Definition Child_parameters (c : string * MobileNet.Child) : list NamedParameter :=
  match c.2 with
  | MobileNet.CConv2d v => Conv2d_parameters c.1 v
  | MobileNet.CDepthwiseSeparableConv d => DepthwiseSeparableConv_parameters c.1 d
  | MobileNet.CAdaptiveAvgPool2d _ => []
  | MobileNet.CLinear l => Linear_parameters c.1 l
  end.

(** [model.named_parameters()] *)
Definition VGG19_named_parameters (self : VGG19.t) : list NamedParameter :=
  Sequential_parameters "feature_extractor" (VGG19.feature_extractor self) ++
  Sequential_parameters "classifier" (VGG19.classifier self).

Definition MobileNet_named_parameters (self : MobileNet.t) : list NamedParameter :=
  MobileNet.named_children self ≫= Child_parameters.

(** The totals of the summary: all parameters, and those that are trained. *)
Definition total_params (ps : list NamedParameter) : N :=
  foldr N.add 0 ((λ q, numel (p_size q)) <$> ps).

Definition trainable_params (ps : list NamedParameter) : N :=
  total_params (filter (λ q, requires_grad q = true) ps).

Definition non_trainable_params (ps : list NamedParameter) : N :=
  total_params (filter (λ q, requires_grad q = false) ps).

(** ** Counting layers *)

Definition is_conv (l : Layer) : bool :=
  match l with LConv2d _ => true | _ => false end.
Definition is_linear (l : Layer) : bool :=
  match l with LLinear _ => true | _ => false end.
Definition is_pool (l : Layer) : bool :=
  match l with LMaxPool2d _ => true | _ => false end.

Definition count_layers (f : Layer → bool) (s : Sequential) : nat :=
  length (List.filter f s).

(** The convolutions and the pooling layers of a [Sequential]. *)
Definition convs (s : Sequential) : list Conv2d :=
  s ≫= λ l, match l with LConv2d c => [c] | _ => [] end.
Definition pools (s : Sequential) : list MaxPool2d :=
  s ≫= λ l, match l with LMaxPool2d m => [m] | _ => [] end.

(** The stages of a feature extractor: the layers before each pooling
    layer, with that pooling layer; layers after the last pooling layer
    form no stage and are returned apart. *)
Fixpoint stages_from (cur : list Layer) (s : Sequential)
    : list (list Layer * MaxPool2d) * list Layer :=
  match s with
  | [] => ([], cur)
  | LMaxPool2d m :: rest =>
      let '(st, tl) := stages_from [] rest in ((cur, m) :: st, tl)
  | l :: rest => stages_from (cur ++ [l]) rest
  end.

Definition stages (s : Sequential) : list (list Layer * MaxPool2d) * list Layer :=
  stages_from [] s.

(** A run of convolution+ReLU pairs, at least one. *)
Fixpoint conv_relu_pairs (ls : list Layer) : bool :=
  match ls with
  | LConv2d _ :: LReLU :: [] => true
  | LConv2d _ :: LReLU :: rest => conv_relu_pairs rest
  | _ => false
  end.

(** The channel count a stage leaves: that of its last convolution. *)
Definition stage_channels (st : list Layer * MaxPool2d) : option N :=
  out_channels <$> list.last (convs st.1).

(** ** Executing [forward] against the weights

    The contents of a tensor and the random generator are those of the
    framework, and so are the numeric kernels: they are the fields of
    [Backend].  What the embedding fixes is which state each call reads and
    writes: the weights of the model ([state_dict], by qualified name), the
    [training] flag of the model, and the generator.  The tensors of the
    execution are in the default layout, as [torch.randn] and the
    constructors of the layers return them. *)

Class Backend (Data Rng : Type) : Type := {
  k_conv2d : Conv2d → Data → Data → Data → Data;
  k_relu : Data → Data;
  k_max_pool2d : MaxPool2d → Size → Data → Data;
  k_adaptive_avg_pool2d : AdaptiveAvgPool2d → Size → Data → Data;
  k_linear : Linear → Data → Data → Data → Data;
  k_dropout : Q → Size → Rng → Data → Data * Rng;
  k_randn : Size → Rng → Data * Rng;
  k_rand : Size → Rng → Data * Rng;
  k_reset_parameters : Size → Rng → Data * Rng
}.

Section Exec.
Context {Data Rng : Type} `{!Backend Data Rng}.

Record Tensor : Type := mkTensor {
  t_size : Size;
  t_data : Data
}.

Record World : Type := mkWorld {
  state_dict : gmap string Tensor;
  training : bool;
  generator : Rng;
  files : gmap string (gmap string Tensor)
}.

Definition Exec (A : Type) : Type := World → Res A * World.

Definition ret {A} (a : A) : Exec A := λ w, (inr a, w).

Definition bind {A B} (m : Exec A) (f : A → Exec B) : Exec B :=
  λ w, match m w with
       | (inl e, w') => (inl e, w')
       | (inr a, w') => f a w'
       end.

Definition raise_in {A} (name : string) (m : Exec A) : Exec A :=
  λ w, let '(r, w') := m w in (wrap name r, w').

Definition lift {A} (r : Res A) : Exec A := λ w, (r, w).

(** [self.weight], [self.bias]: a read of the store. *)
Definition get_parameter (key : string) : Exec Tensor :=
  λ w, match state_dict w !! key with
       | Some t => (inr t, w)
       | None => (inl (MissingKey key), w)
       end.

Definition exec_conv2d (path : string) (c : Conv2d) (x : Tensor) : Exec Tensor :=
  bind (get_parameter (child path "weight")) (λ weight,
  bind (get_parameter (child path "bias")) (λ bias,
  bind (lift (conv2d_size c (t_size x))) (λ s,
  ret (mkTensor s (k_conv2d c (t_data weight) (t_data bias) (t_data x)))))).

Definition exec_linear (path : string) (l : Linear) (x : Tensor) : Exec Tensor :=
  bind (get_parameter (child path "weight")) (λ weight,
  bind (get_parameter (child path "bias")) (λ bias,
  bind (lift (linear_size l (t_size x))) (λ s,
  ret (mkTensor s (k_linear l (t_data weight) (t_data bias) (t_data x)))))).

Definition exec_relu (x : Tensor) : Exec Tensor :=
  ret (mkTensor (t_size x) (k_relu (t_data x))).

Definition exec_max_pool2d (m : MaxPool2d) (x : Tensor) : Exec Tensor :=
  bind (lift (max_pool2d_size m (t_size x))) (λ s,
  ret (mkTensor s (k_max_pool2d m (t_size x) (t_data x)))).

Definition exec_adaptive_avg_pool2d (a : AdaptiveAvgPool2d) (x : Tensor)
    : Exec Tensor :=
  bind (lift (adaptive_avg_pool2d_size a (t_size x))) (λ s,
  ret (mkTensor s (k_adaptive_avg_pool2d a (t_size x) (t_data x)))).

(** Dropout masks its input in training mode, drawing the mask from the
    generator, and is the identity in evaluation mode. *)
Definition exec_dropout (d : Dropout) (x : Tensor) : Exec Tensor :=
  λ w, if training w then
         let '(y, g) := k_dropout (p d) (t_size x) (generator w) (t_data x) in
         (inr (mkTensor (t_size x) y),
          mkWorld (state_dict w) (training w) g (files w))
       else (inr x, w).

Definition exec_size (x : Tensor) (dim : nat) : Exec N :=
  lift (size_at (t_size x) dim).

(** A view shares the contents of its tensor; that of a tensor in the
    default layout exists whenever the sizes fit. *)
Definition exec_view (shape : list Z) (x : Tensor) : Exec Tensor :=
  bind (lift (view_size shape (t_size x))) (λ s, ret (mkTensor s (t_data x))).

#[export] Instance Torch_exec : Torch Exec Tensor := {|
  op_ret A a := ret a;
  op_bind A B m f := bind m f;
  op_at A name m := raise_in name m;
  op_conv2d path c x := exec_conv2d path c x;
  op_relu x := exec_relu x;
  op_max_pool2d m x := exec_max_pool2d m x;
  op_adaptive_avg_pool2d a x := exec_adaptive_avg_pool2d a x;
  op_linear path l x := exec_linear path l x;
  op_dropout d x := exec_dropout d x;
  op_size x dim := exec_size x dim;
  op_view shape x := exec_view shape x
|}.

Definition VGG19_forward (self : VGG19.t) (x : Tensor) : Exec Tensor :=
  VGG19.forward self x.
Definition MobileNet_forward (self : MobileNet.t) (x : Tensor) : Exec Tensor :=
  MobileNet.forward self x.

(** *** The cells of a notebook

    After the imports and the class definition, the cells of both
    notebooks are of these kinds. *)
Inductive Cell : Type :=
  | NewModel                    (* model = VGG19() / model = MobileNet() *)
  | Summary (input_size : Size) (* summary(model=model, input_size=...) *)
  | CallShape (size : Size)     (* model(torch.randn(size)).shape *)
  | Call (size : Size)          (* output = model(torch.randn(size)) *)
  | OutputShape                 (* output.shape *)
  | Argmax.                     (* torch.argmax(output) *)

Record Session : Type := mkSession {
  world : World;
  output : option Tensor
}.

(** [torch.randn(size)] *)
Definition randn (size : Size) (w : World) : Tensor * World :=
  let '(d, g) := k_randn size (generator w) in
  (mkTensor size d, mkWorld (state_dict w) (training w) g (files w)).

(** Constructing a layer fills each of its parameters from the generator. *)
Definition register_parameter (w : World) (q : NamedParameter) : World :=
  let '(d, g) := k_reset_parameters (p_size q) (generator w) in
  mkWorld (<[p_name q := mkTensor (p_size q) d]> (state_dict w)) (training w) g (files w).

Section Notebook.
(** The class of the notebook: the parameters its constructor registers
    with the default arguments, and its [forward]. *)
Variable named_parameters : list NamedParameter.
Variable forward : Tensor → Exec Tensor.

(** A new module is in training mode. *)
Definition new_model (w : World) : World :=
  foldl register_parameter
    (mkWorld ∅ true (generator w) (files w)) named_parameters.

(** The summary utility runs one forward pass on a random input in
    evaluation mode and puts the mode back. *)
Definition summary (input_size : Size) (w : World) : World :=
  let '(d, g) := k_rand input_size (generator w) in
  let x := mkTensor input_size d in
  let w1 := mkWorld (state_dict w) false g (files w) in
  let '(_, w2) := forward x w1 in
  mkWorld (state_dict w2) (training w) (generator w2) (files w2).

Definition run_cell (c : Cell) (s : Session) : Session :=
  match c with
  | NewModel => mkSession (new_model (world s)) (output s)
  | Summary input_size => mkSession (summary input_size (world s)) (output s)
  | CallShape size =>
      let '(x, w1) := randn size (world s) in
      let '(_, w2) := forward x w1 in
      mkSession w2 (output s)
  | Call size =>
      let '(x, w1) := randn size (world s) in
      match forward x w1 with
      | (inr y, w2) => mkSession w2 (Some y)
      | (inl _, w2) => mkSession w2 (output s)
      end
  | OutputShape => s
  | Argmax => s
  end.

Definition run_cells (cs : list Cell) (s : Session) : Session :=
  foldl (λ s c, run_cell c s) s cs.

End Notebook.

(** The code cells of the two notebooks, in order. *)
Definition vgg_19_cells : list Cell :=
  [NewModel; Summary [1; 3; 224; 224]; CallShape [1; 3; 224; 224]].

Definition mobile_net_cells : list Cell :=
  [NewModel; Summary [1; 3; 224; 224]; Call [1; 3; 224; 224]; OutputShape; Argmax].

Definition run_vgg_19 : Session → Session :=
  run_cells (VGG19_named_parameters (VGG19.__init__ VGG19.default_num_classes))
    (VGG19_forward (VGG19.__init__ VGG19.default_num_classes)) vgg_19_cells.

Definition run_mobile_net : Session → Session :=
  run_cells
    (MobileNet_named_parameters (MobileNet.__init__ MobileNet.default_num_classes))
    (MobileNet_forward (MobileNet.__init__ MobileNet.default_num_classes))
    mobile_net_cells.

End Exec.

Arguments Tensor : clear implicits.
Arguments World : clear implicits.
Arguments Session : clear implicits.
Arguments Exec : clear implicits.

(** A computation that changes neither the weights nor the files. *)
Definition frame {Data Rng A} (m : Exec Data Rng A) : Prop :=
  ∀ w, state_dict (m w).2 = state_dict w ∧ files (m w).2 = files w.

(** The execution [m] and the reading on sizes [r] agree: a result of [m]
    has, under [π], the value that [r] gives. *)
Definition agrees {Data Rng A B} (π : A → B) (m : Exec Data Rng A) (r : Res B) : Prop :=
  ∀ w a w', m w = (inr a, w') → r = inr (π a).

(** The names under which parameters are stored. *)
Definition parameter_names (ps : list NamedParameter) : list string :=
  p_name <$> ps.

(** The weights named [ks] are in the store. *)
Definition present {Data Rng} (ks : list string) (w : World Data Rng) : Prop :=
  ∀ k, k ∈ ks → is_Some (state_dict w !! k).

(** With the weights [ks] in the store, the execution [m] returns what the
    reading on sizes [r] gives, the same error or a result with that value
    under [π], and returns the weights as they were. *)
Definition simulates {Data Rng A B} (ks : list string) (π : A → B)
    (m : Exec Data Rng A) (r : Res B) : Prop :=
  ∀ w, present ks w →
    sum_map id π (m w).1 = r ∧ state_dict (m w).2 = state_dict w.

(** Every run of [m] takes a state to one that is [R]-related to it. *)
Definition steps_within {Data Rng A} (R : relation (World Data Rng))
    (m : Exec Data Rng A) : Prop :=
  ∀ w, R w (m w).2.

(** Related states: nothing but the generator differs. *)
Definition same_but_generator {Data Rng} (w w' : World Data Rng) : Prop :=
  state_dict w' = state_dict w ∧ training w' = training w ∧ files w' = files w.

(** Related states: equal, if the first is in evaluation mode. *)
Definition same_in_eval {Data Rng} (w w' : World Data Rng) : Prop :=
  training w = false → w' = w.

(** *** A backend that records

    Tensor contents as the expression that computed them, and a generator
    that counts its draws: with it [forward] runs inside Rocq. *)
Inductive Sym : Type :=
  | Leaf (name : string)
  | Node1 (op : string) (x : Sym)
  | Node2 (op : string) (a x : Sym)
  | Node3 (op : string) (weight bias x : Sym).

Definition draw (kind : string) (g : nat) : Sym * nat :=
  (Leaf (kind +:+ pretty g), S g).

#[export] Instance Recording : Backend Sym nat := {|
  k_conv2d _ weight bias x := Node3 "conv2d" weight bias x;
  k_relu x := Node1 "relu" x;
  k_max_pool2d _ _ x := Node1 "max_pool2d" x;
  k_adaptive_avg_pool2d _ _ x := Node1 "adaptive_avg_pool2d" x;
  k_linear _ weight bias x := Node3 "linear" weight bias x;
  k_dropout _ _ g x := let '(mask, g') := draw "mask" g in (Node2 "dropout" mask x, g');
  k_randn _ g := draw "randn" g;
  k_rand _ g := draw "rand" g;
  k_reset_parameters _ g := draw "init" g
|}.

Definition empty_session : Session Sym nat :=
  mkSession (mkWorld ∅ true 0%nat ∅) None.

(** The state after [model = VGG19()] in an empty session. *)
Definition built_vgg_19 : World Sym nat :=
  new_model (VGG19_named_parameters (VGG19.__init__ VGG19.default_num_classes))
    (world empty_session).

(** The state after [model = MobileNet()] in an empty session. *)
Definition built_mobile_net : World Sym nat :=
  new_model (MobileNet_named_parameters (MobileNet.__init__ MobileNet.default_num_classes))
    (world empty_session).

(** * Properties *)

(** ** Arithmetic of the size rules *)

Lemma window_out_pos (n k s pad : N) : 1 ≤ window_out n k s pad.
Proof. unfold window_out. generalize ((n + 2 * pad - k) / s). lia. Qed.

Lemma window_out_1x1 (n : N) : 1 ≤ n → window_out n 1 1 0 = n.
Proof. intros Hn. unfold window_out. rewrite N.div_1_r. lia. Qed.

Lemma numel_cons (d : N) (s : Size) : numel (d :: s) = d * numel s.
Proof. reflexivity. Qed.

(** The weight of a convolution fits its groups. *)
Lemma weight_fits_groups (o g : N) :
  g ≤ o → o mod g = 0 → (o <? g) || negb (o mod g =? 0) = false.
Proof.
  intros Hg Hm. rewrite Hm. cbn. destruct (N.ltb_spec o g); [lia|done].
Qed.

Lemma conv2d_size_3x3 (n i o s g h w : N) :
  s ≠ 0 → g ≤ o → o mod g = 0 → 1 ≤ h → 1 ≤ w →
  conv2d_size (mkConv2d i o 3 s 1 g) [n; i; h; w]
  = inr [n; o; window_out h 3 s 1; window_out w 3 s 1].
Proof.
  intros Hs Hg Hm Hh Hw. unfold conv2d_size.
  cbn [in_channels out_channels kernel_size stride padding groups].
  rewrite weight_fits_groups by done.
  rewrite N.eqb_refl. cbn [negb].
  destruct (N.eqb_spec s 0) as [->|_]; [done|].
  destruct (N.ltb_spec (h + 2 * 1) 3); [lia|].
  destruct (N.ltb_spec (w + 2 * 1) 3); [lia|].
  reflexivity.
Qed.

Lemma conv2d_size_1x1 (n i o g h w : N) :
  g ≤ o → o mod g = 0 → 1 ≤ h → 1 ≤ w →
  conv2d_size (mkConv2d i o 1 1 0 g) [n; i; h; w] = inr [n; o; h; w].
Proof.
  intros Hg Hm Hh Hw. unfold conv2d_size.
  cbn [in_channels out_channels kernel_size stride padding groups].
  rewrite weight_fits_groups by done.
  rewrite N.eqb_refl. cbn [negb N.eqb].
  destruct (N.ltb_spec (h + 2 * 0) 1); [lia|].
  destruct (N.ltb_spec (w + 2 * 0) 1); [lia|].
  cbn [orb app]. by rewrite !window_out_1x1.
Qed.

(** [x.view(x.size(0), -1)] on sizes. *)
Lemma flatten_size (d : N) (rest : Size) :
  d ≠ 0 →
  VGG19_flatten_size (d :: rest) = inr [d; numel rest].
Proof.
  intros Hd. unfold VGG19_flatten_size, VGG19.flatten.
  cbn [op_bind op_size op_view Torch_size size_at lookup list_lookup].
  unfold view_size. destruct d as [|q]; [done|].
  cbn [Z.of_N existsb Z.ltb Z.compare orb].
  rewrite numel_cons.
  set (m := numel rest).
  assert (Hf : filter (λ z : Z, z ≠ (-1)%Z) [Z.pos q; (-1)%Z] = [Z.pos q]) by reflexivity.
  rewrite Hf. cbn [length Nat.sub fmap list_fmap foldr Z.to_N].
  rewrite N.mul_1_r.
  assert (Hm : (N.pos q * m) mod N.pos q = 0).
  { rewrite N.mul_comm. by apply N.Div0.mod_mul. }
  rewrite Hm. cbn [N.eqb N.ltb N.compare andb].
  rewrite orb_true_r.
  assert (Hq : N.pos q * m / N.pos q = m).
  { rewrite N.mul_comm. by apply N.div_mul. }
  rewrite Hq. reflexivity.
Qed.


Lemma MobileNet_flatten_size_eq (x : Size) :
  MobileNet_flatten_size x = VGG19_flatten_size x.
Proof. reflexivity. Qed.

(** ** The layers of VGG19 *)

(** C1.  The markdown cell of the notebook announces 16 convolutional and
    3 fully connected layers for VGG19.  The [feature_extractor] that
    [__init__] builds holds 12 convolutions (with 12 ReLUs and 5 pooling
    layers, 29 children), the [classifier] 3 linear layers: 15 layers with
    weights, for every [num_classes]. *)
Theorem VGG19_layer_counts (num_classes : N) :
  let self := VGG19.__init__ num_classes in
  count_layers is_conv (VGG19.feature_extractor self) = 12%nat ∧
  count_layers is_pool (VGG19.feature_extractor self) = 5%nat ∧
  length (VGG19.feature_extractor self) = 29%nat ∧
  count_layers is_linear (VGG19.classifier self) = 3%nat ∧
  count_layers is_conv (VGG19.feature_extractor self) ≠ 16%nat.
Proof. cbv zeta. repeat split; try reflexivity. vm_compute. discriminate. Qed.

(** C2.  The [feature_extractor] splits into five stages, each a run of
    convolution+ReLU pairs closed by one 2x2 pooling layer, and nothing
    follows the last pooling layer.  The stages have 2, 2, 1, 3 and 4
    convolutions and leave 64, 128, 256, 256 and 512 channels: the
    fourth stage stays at 256 channels, where the markdown cell announces
    64, 128, 256, 512, 512. *)
Theorem VGG19_stage_channels (num_classes : N) :
  let st := stages (VGG19.feature_extractor (VGG19.__init__ num_classes)) in
  st.2 = [] ∧
  Forall (λ s, conv_relu_pairs s.1 = true ∧ s.2 = mkMaxPool2d 2 2) st.1 ∧
  (λ s, length (convs s.1)) <$> st.1 = [2; 2; 1; 3; 4]%nat ∧
  stage_channels <$> st.1 = [Some 64; Some 128; Some 256; Some 256; Some 512] ∧
  stage_channels <$> st.1 ≠ [Some 64; Some 128; Some 256; Some 512; Some 512].
Proof.
  cbv zeta. repeat split; try reflexivity.
  - vm_compute. repeat constructor.
  - vm_compute. discriminate.
Qed.

(** C3.  Every convolution of the [feature_extractor] has a 3x3 kernel,
    padding 1 and stride 1 (the default), and every pooling layer has a 2x2
    window and stride 2. *)
Theorem VGG19_kernels (num_classes : N) :
  let fe := VGG19.feature_extractor (VGG19.__init__ num_classes) in
  Forall (λ c, kernel_size c = 3 ∧ padding c = 1 ∧ stride c = 1) (convs fe) ∧
  Forall (λ m, pool_kernel_size m = 2 ∧ pool_stride m = 2) (pools fe).
Proof. cbv zeta. split; vm_compute; repeat constructor. Qed.

(** ** Parameter counts *)

(** C6.  With 1000 classes MobileNet has 4,221,032 parameters and VGG19
    has 134,228,008, weights and biases together, and every one of them is
    trainable. *)
Theorem total_params_of_both_models :
  let mobile_net := MobileNet_named_parameters (MobileNet.__init__ 1000) in
  let vgg_19 := VGG19_named_parameters (VGG19.__init__ 1000) in
  total_params mobile_net = 4221032 ∧
  total_params vgg_19 = 134228008 ∧
  Forall (λ q, requires_grad q = true) mobile_net ∧
  Forall (λ q, requires_grad q = true) vgg_19 ∧
  trainable_params mobile_net = total_params mobile_net ∧
  trainable_params vgg_19 = total_params vgg_19 ∧
  non_trainable_params mobile_net = 0 ∧
  non_trainable_params vgg_19 = 0.
Proof.
  cbv zeta. repeat split; try (vm_compute; reflexivity).
  - vm_compute. repeat constructor.
  - vm_compute. repeat constructor.
Qed.

(** ** Sizes through VGG19 *)


Lemma VGG19_classify_25088 (num_classes n : N) :
  VGG19_classify_size (VGG19.__init__ num_classes) [n; 25088] = inr [n; num_classes].
Proof. vm_compute. reflexivity. Qed.

Lemma VGG19_classify_other (num_classes n k : N) :
  k ≠ 25088 →
  VGG19_classify_size (VGG19.__init__ num_classes) [n; k]
  = inl (At "classifier" (At "0" (MatMulMismatch n k 25088 4096))).
Proof.
  intros Hk. unfold VGG19_classify_size, VGG19.classify.
  cbn -[N.mul N.eqb pretty].
  destruct (N.eqb_spec k (512 * 7 * 7)) as [E|_]; [by destruct Hk|].
  cbn. by rewrite N.mul_1_r.
Qed.

(** How [forward] is made of its three statements. *)
Lemma VGG19_forward_size_unfold (self : VGG19.t) (x : Size) :
  VGG19_forward_size self x
  = match VGG19_features_size self x with
    | inl e => inl e
    | inr f =>
        match VGG19_flatten_size f with
        | inl e => inl e
        | inr g => VGG19_classify_size self g
        end
    end.
Proof.
  unfold VGG19_forward_size, VGG19.forward, VGG19_features_size,
    VGG19_flatten_size, VGG19_classify_size.
  cbn [op_bind op_ret Torch_size].
  destruct (VGG19.features self x) as [e|f]; [done|].
  destruct (VGG19.flatten f) as [e|g]; [done|].
  by destruct (VGG19.classify self g).
Qed.

(** ** Tensors in the default layout

    On a contiguous tensor the reading on sizes and layouts is the reading
    on sizes: every layer returns a contiguous tensor, and the view
    exists. *)

(** Contiguous strides never look like channels-last strides. *)
Lemma contiguous_strides_not_channels_last (n c h w : N) :
  is_channels_last_strides_2d [n; c; h; w] (contiguous_strides [n; c; h; w]) = false.
Proof.
  unfold is_channels_last_strides_2d, contiguous_strides.
  cbn [foldr channels_last_from andb].
  rewrite !N.mul_1_r.
  destruct (N.max_spec c 1) as [[? ->]|[? ->]];
  destruct (N.max_spec h 1) as [[? ->]|[? ->]];
  destruct (N.max_spec w 1) as [[? ->]|[? ->]].
  all: rewrite ?N.mul_1_r, ?N.mul_1_l.
  all: repeat match goal with
         | |- context [?a =? ?b] => destruct (N.eqb_spec a b)
         | |- context [?a <? ?b] => destruct (N.ltb_spec a b)
         end; try reflexivity.
  all: repeat match goal with
         | H : context [?a <? ?b] |- _ => destruct (N.ltb_spec a b)
         end.
  all: exfalso; nia.
Qed.

Lemma contiguous_bind (m' : Res Meta) (m : Res Size)
    (f' : Meta → Res Meta) (f : Size → Res Size) :
  stays_contiguous m' m →
  (∀ s, stays_contiguous (f' (contiguous s)) (f s)) →
  stays_contiguous (op_bind (Torch := Torch_meta) m' f') (op_bind (Torch := Torch_size) m f).
Proof. intros -> Hf. destruct m as [e|s]; [reflexivity|]. apply Hf. Qed.

Lemma contiguous_at (name : string) (m' : Res Meta) (m : Res Size) :
  stays_contiguous m' m →
  stays_contiguous (op_at (Torch := Torch_meta) name m') (op_at (Torch := Torch_size) name m).
Proof. intros ->. by destruct m. Qed.

Lemma contiguous_ret (s : Size) :
  stays_contiguous (op_ret (Torch := Torch_meta) (contiguous s))
    (op_ret (Torch := Torch_size) s).
Proof. reflexivity. Qed.

Lemma contiguous_conv2d (path : string) (c : Conv2d) (s : Size) :
  stays_contiguous (op_conv2d path c (contiguous s)) (op_conv2d path c s).
Proof. unfold stays_contiguous. cbn. by destruct (conv2d_size c s). Qed.

Lemma contiguous_relu (s : Size) :
  stays_contiguous (op_relu (contiguous s)) (op_relu s).
Proof. reflexivity. Qed.

Lemma contiguous_dropout (d : Dropout) (s : Size) :
  stays_contiguous (op_dropout d (contiguous s)) (op_dropout d s).
Proof. reflexivity. Qed.

Lemma contiguous_max_pool2d (m : MaxPool2d) (s : Size) :
  stays_contiguous (op_max_pool2d m (contiguous s)) (op_max_pool2d m s).
Proof. unfold stays_contiguous. cbn. by destruct (max_pool2d_size m s). Qed.

Lemma contiguous_adaptive_avg_pool2d (a : AdaptiveAvgPool2d) (s : Size) :
  stays_contiguous (op_adaptive_avg_pool2d a (contiguous s)) (op_adaptive_avg_pool2d a s).
Proof.
  unfold stays_contiguous. cbn -[adaptive_avg_pool2d_size].
  by destruct (adaptive_avg_pool2d_size a s).
Qed.

Lemma contiguous_linear (path : string) (l : Linear) (s : Size) :
  stays_contiguous (op_linear path l (contiguous s)) (op_linear path l s).
Proof. reflexivity. Qed.

Lemma contiguous_flatten (s : Size) :
  stays_contiguous (VGG19.flatten (contiguous s)) (VGG19.flatten s).
Proof.
  unfold stays_contiguous, VGG19.flatten.
  cbn [op_bind op_size op_view Torch_meta Torch_size contiguous m_size].
  destruct (size_at s 0) as [e|n]; [reflexivity|].
  unfold view_meta.
  change (m_size (contiguous s)) with s.
  change (m_layout (contiguous s)) with Contiguous.
  by destruct (view_size _ s).
Qed.

Lemma contiguous_Layer (path : string) (l : Layer) (s : Size) :
  stays_contiguous (Layer_forward path l (contiguous s)) (Layer_forward path l s).
Proof.
  destruct l; cbn [Layer_forward].
  - apply contiguous_conv2d.
  - apply contiguous_relu.
  - apply contiguous_max_pool2d.
  - apply contiguous_linear.
  - apply contiguous_dropout.
Qed.

Lemma contiguous_Sequential (self : Sequential) :
  ∀ (i : nat) (path : string) (s : Size),
    stays_contiguous (Sequential_forward_from i path self (contiguous s))
      (Sequential_forward_from i path self s).
Proof.
  induction self as [|l rest IH]; intros i path s; [reflexivity|].
  cbn [Sequential_forward_from].
  apply contiguous_bind; [|intros s'; apply IH].
  apply contiguous_at, contiguous_Layer.
Qed.

Ltac contiguous_steps :=
  repeat first
    [ apply contiguous_ret | apply contiguous_conv2d | apply contiguous_relu
    | apply contiguous_adaptive_avg_pool2d | apply contiguous_linear
    | apply contiguous_flatten | apply contiguous_Sequential
    | apply contiguous_at | apply contiguous_bind; [|intros ?] ].


Lemma VGG19_flatten_contiguous (s : Size) :
  VGG19_flatten_meta (contiguous s) = in_contiguous (VGG19_flatten_size s).
Proof. apply contiguous_flatten. Qed.

Lemma VGG19_forward_contiguous (self : VGG19.t) (s : Size) :
  VGG19_forward_meta self (contiguous s) = in_contiguous (VGG19_forward_size self s).
Proof.
  change (stays_contiguous (VGG19_forward_meta self (contiguous s))
            (VGG19_forward_size self s)).
  unfold VGG19_forward_meta, VGG19_forward_size, VGG19.forward, VGG19.features,
    VGG19.classify, Sequential_forward.
  contiguous_steps.
Qed.

Lemma MobileNet_forward_contiguous (self : MobileNet.t) (s : Size) :
  MobileNet_forward_meta self (contiguous s)
  = in_contiguous (MobileNet_forward_size self s).
Proof.
  change (stays_contiguous (MobileNet_forward_meta self (contiguous s))
            (MobileNet_forward_size self s)).
  unfold MobileNet_forward_meta, MobileNet_forward_size, MobileNet.forward,
    MobileNet.convolutions, MobileNet.dw, DepthwiseSeparableConv.forward.
  change (@MobileNet.flatten Res Meta _) with (@VGG19.flatten Res Meta _).
  change (@MobileNet.flatten Res Size _) with (@VGG19.flatten Res Size _).
  contiguous_steps.
Qed.



(** C5 does not extend to every layout.  On an input of size
    [(1, 3, 224, 224)] in [torch.channels_last] the [feature_extractor]
    gives [(1, 512, 7, 7)] in that layout, of which
    [x.view(x.size(0), -1)] does not exist: [forward] raises. *)
Lemma VGG19_forward_channels_last :
  let self := VGG19.__init__ 1000 in
  let x := mkMeta [1; 3; 224; 224] ChannelsLast in
  VGG19_features_meta self x = inr (mkMeta [1; 512; 7; 7] ChannelsLast) ∧
  VGG19_flatten_meta (mkMeta [1; 512; 7; 7] ChannelsLast) = inl ViewStride ∧
  VGG19_forward_meta self x = inl ViewStride.
Proof. split_and!; vm_compute; reflexivity. Qed.





(** ** Sizes through MobileNet *)

Lemma DepthwiseSeparableConv_forward_size_ok (path : string) (i o s n h w : N) :
  s ≠ 0 → 1 ≤ o → 1 ≤ h → 1 ≤ w →
  DepthwiseSeparableConv_forward_size path (DepthwiseSeparableConv.__init__ i o s)
    [n; i; h; w]
  = inr [n; o; window_out h 3 s 1; window_out w 3 s 1].
Proof.
  intros Hs Ho Hh Hw.
  unfold DepthwiseSeparableConv_forward_size, DepthwiseSeparableConv.forward,
    DepthwiseSeparableConv.__init__.
  cbn [op_bind op_ret op_at op_conv2d Torch_size
       DepthwiseSeparableConv.depthwise DepthwiseSeparableConv.pointwise].
  rewrite conv2d_size_3x3 by (done || apply N.Div0.mod_same). cbn [wrap].
  rewrite conv2d_size_1x1
    by (done || apply window_out_pos || apply N.mod_1_r). reflexivity.
Qed.

Lemma dw_size_ok (name : string) (i o s n h w : N) :
  s ≠ 0 → 1 ≤ o → 1 ≤ h → 1 ≤ w →
  MobileNet.dw (M := Res) name (DepthwiseSeparableConv.__init__ i o s) [n; i; h; w]
  = inr [n; o; window_out h 3 s 1; window_out w 3 s 1].
Proof.
  intros Hs Ho Hh Hw. unfold MobileNet.dw. cbn [op_at Torch_size].
  change (DepthwiseSeparableConv.forward name ?d ?x)
    with (DepthwiseSeparableConv_forward_size name d x).
  by rewrite DepthwiseSeparableConv_forward_size_ok.
Qed.

Lemma MobileNet_spatial_pos (h : N) : 1 ≤ MobileNet_spatial h.
Proof. apply window_out_pos. Qed.

Lemma MobileNet_convolutions_ok (num_classes n h w : N) :
  1 ≤ h → 1 ≤ w →
  MobileNet_convolutions_size (MobileNet.__init__ num_classes) [n; 3; h; w]
  = inr [n; 1024; MobileNet_spatial h; MobileNet_spatial w].
Proof.
  intros Hh Hw.
  unfold MobileNet_convolutions_size, MobileNet.convolutions, MobileNet.__init__.
  cbn [op_bind op_ret op_relu op_at op_conv2d Torch_size MobileNet.conv1
       MobileNet.dw_conv2 MobileNet.dw_conv3 MobileNet.dw_conv4
       MobileNet.dw_conv5 MobileNet.dw_conv6 MobileNet.dw_conv7
       MobileNet.dw_conv8 MobileNet.dw_conv9 MobileNet.dw_conv10
       MobileNet.dw_conv11 MobileNet.dw_conv12 MobileNet.dw_conv13
       MobileNet.dw_conv14].
  rewrite conv2d_size_3x3 by done. cbn [wrap].
  repeat (rewrite dw_size_ok by (done || apply window_out_pos); cbv beta iota).
  reflexivity.
Qed.

Lemma MobileNet_forward_size_unfold (self : MobileNet.t) (x : Size) :
  MobileNet_forward_size self x
  = match MobileNet_convolutions_size self x with
    | inl e => inl e
    | inr f =>
        match wrap "avg_pool" (adaptive_avg_pool2d_size (MobileNet.avg_pool self) f) with
        | inl e => inl e
        | inr p =>
            match MobileNet_flatten_size p with
            | inl e => inl e
            | inr g => wrap "fc" (linear_size (MobileNet.fc self) g)
            end
        end
    end.
Proof.
  unfold MobileNet_forward_size, MobileNet.forward, MobileNet_convolutions_size,
    MobileNet_flatten_size.
  cbn [op_bind op_ret op_at op_adaptive_avg_pool2d op_linear Torch_size].
  destruct (MobileNet.convolutions self x) as [e|f]; [done|].
  destruct (wrap "avg_pool" _) as [e|q]; [done|].
  destruct (MobileNet.flatten q) as [e|g]; [done|].
  by destruct (wrap "fc" _).
Qed.

(** C8, for a batch that is not empty.  On an input of size [(n, 3, h, w)]
    with [1 ≤ n], [1 ≤ h] and [1 ≤ w], the convolutions leave 1024
    channels on a spatial size that is not empty, the adaptive pooling
    layer takes it to [(n, 1024, 1, 1)], the view flattens that to
    [(n, 1024)] whatever [h] and [w] are, and [forward] returns size
    [(n, 1000)]. *)
Theorem MobileNet_forward_any_size (n h w : N) :
  1 ≤ n → 1 ≤ h → 1 ≤ w →
  let self := MobileNet.__init__ 1000 in
  (∃ h' w', 1 ≤ h' ∧ 1 ≤ w' ∧
     MobileNet_convolutions_size self [n; 3; h; w] = inr [n; 1024; h'; w'] ∧
     adaptive_avg_pool2d_size (MobileNet.avg_pool self) [n; 1024; h'; w']
     = inr [n; 1024; 1; 1]) ∧
  MobileNet_flatten_size [n; 1024; 1; 1] = inr [n; 1024] ∧
  MobileNet_forward_size self [n; 3; h; w] = inr [n; 1000].
Proof.
  intros Hn Hh Hw self.
  pose proof (MobileNet_spatial_pos h) as Hh'.
  pose proof (MobileNet_spatial_pos w) as Hw'.
  assert (Hpool : adaptive_avg_pool2d_size (MobileNet.avg_pool self)
            [n; 1024; MobileNet_spatial h; MobileNet_spatial w] = inr [n; 1024; 1; 1]).
  { reflexivity. }
  assert (Hflat : MobileNet_flatten_size [n; 1024; 1; 1] = inr [n; 1024]).
  { rewrite MobileNet_flatten_size_eq, flatten_size by lia. reflexivity. }
  split_and!.
  - exists (MobileNet_spatial h), (MobileNet_spatial w).
    split_and!; [done|done| |done]. by apply MobileNet_convolutions_ok.
  - exact Hflat.
  - rewrite MobileNet_forward_size_unfold. unfold self.
    rewrite MobileNet_convolutions_ok by done.
    fold self. rewrite Hpool. cbn [wrap]. rewrite Hflat. reflexivity.
Qed.

Lemma MobileNet_forward_any_size_witness :
  1 ≤ 2 ∧ 1 ≤ 1 ∧ 1 ≤ 37 ∧
  MobileNet_forward_size (MobileNet.__init__ 1000) [2; 3; 1; 37] = inr [2; 1000].
Proof.
  split_and!; [lia|lia|lia|]. apply (MobileNet_forward_any_size 2 1 37); lia.
Defined.

(** C8 does not extend to the empty batch: the pooled size
    [(0, 1024, 1, 1)] has no elements, so the [-1] of the view cannot be
    inferred and [forward] raises instead of returning size [(0, 1000)]. *)
Lemma MobileNet_forward_empty_batch :
  MobileNet_forward_size (MobileNet.__init__ 1000) [0; 3; 224; 224] = inl ViewAmbiguous ∧
  MobileNet_forward_size (MobileNet.__init__ 1000) [0; 3; 224; 224] ≠ inr [0; 1000].
Proof. split; [vm_compute; reflexivity | vm_compute; discriminate]. Qed.

(** ** What a forward pass reads and writes *)

Create HintDb frame.

Section Frame.
Context {Data Rng : Type} `{!Backend Data Rng}.

Lemma frame_ret {A} (a : A) : frame (Data := Data) (Rng := Rng) (ret a).
Proof. by intros w. Qed.

Lemma frame_lift {A} (r : Res A) : frame (Data := Data) (Rng := Rng) (lift r).
Proof. by intros w. Qed.

Lemma frame_bind {A B} (m : Exec Data Rng A) (f : A → Exec Data Rng B) :
  frame m → (∀ a, frame (f a)) → frame (bind m f).
Proof.
  intros Hm Hf w. unfold bind. specialize (Hm w).
  destruct (m w) as [[e|a] w1]; cbn in *; [done|].
  destruct Hm as [Hs Hfl], (Hf a w1) as [Hs' Hfl'].
  split; [by rewrite Hs', Hs | by rewrite Hfl', Hfl].
Qed.

Lemma frame_raise_in {A} (name : string) (m : Exec Data Rng A) :
  frame m → frame (raise_in name m).
Proof.
  intros Hm w. unfold raise_in. specialize (Hm w). by destruct (m w).
Qed.

Lemma frame_get_parameter (key : string) :
  frame (Data := Data) (Rng := Rng) (get_parameter key).
Proof. intros w. unfold get_parameter. by destruct (state_dict w !! key). Qed.

Lemma frame_dropout (d : Dropout) (x : Tensor Data) : frame (exec_dropout d x).
Proof.
  intros w. unfold exec_dropout. destruct (training w); [|done].
  by destruct (k_dropout _ _ _ _).
Qed.

#[local] Hint Resolve frame_ret frame_lift frame_raise_in frame_get_parameter
  frame_dropout : frame.

Ltac frame_steps :=
  repeat first
    [ apply frame_bind; [|intros ?]
    | progress auto with frame ].

Lemma frame_conv2d (path : string) (c : Conv2d) (x : Tensor Data) :
  frame (exec_conv2d path c x).
Proof. unfold exec_conv2d. frame_steps. Qed.

Lemma frame_linear (path : string) (l : Linear) (x : Tensor Data) :
  frame (exec_linear path l x).
Proof. unfold exec_linear. frame_steps. Qed.

Lemma frame_relu (x : Tensor Data) : frame (Rng := Rng) (exec_relu x).
Proof. unfold exec_relu. frame_steps. Qed.

Lemma frame_max_pool2d (m : MaxPool2d) (x : Tensor Data) :
  frame (Rng := Rng) (exec_max_pool2d m x).
Proof. unfold exec_max_pool2d. frame_steps. Qed.

Lemma frame_adaptive_avg_pool2d (a : AdaptiveAvgPool2d) (x : Tensor Data) :
  frame (Rng := Rng) (exec_adaptive_avg_pool2d a x).
Proof. unfold exec_adaptive_avg_pool2d. frame_steps. Qed.

Lemma frame_size (x : Tensor Data) (dim : nat) :
  frame (Rng := Rng) (exec_size x dim).
Proof. unfold exec_size. frame_steps. Qed.

Lemma frame_view (shape : list Z) (x : Tensor Data) :
  frame (Rng := Rng) (exec_view shape x).
Proof. unfold exec_view. frame_steps. Qed.

#[local] Hint Resolve frame_conv2d frame_linear frame_relu frame_max_pool2d
  frame_adaptive_avg_pool2d frame_size frame_view : frame.

Lemma frame_Layer (path : string) (l : Layer) (x : Tensor Data) :
  frame (Layer_forward (M := Exec Data Rng) path l x).
Proof. destruct l; cbn; auto with frame. Qed.

Lemma frame_Sequential (self : Sequential) :
  ∀ (i : nat) (path : string) (x : Tensor Data),
    frame (Sequential_forward_from (M := Exec Data Rng) i path self x).
Proof.
  induction self as [|l rest IH]; intros i path x; cbn.
  - apply frame_ret.
  - apply frame_bind; [|intros y; apply IH].
    apply frame_raise_in, frame_Layer.
Qed.

Lemma frame_VGG19_forward (self : VGG19.t) (x : Tensor Data) :
  frame (VGG19_forward (Rng := Rng) self x).
Proof.
  unfold VGG19_forward, VGG19.forward, VGG19.features, VGG19.flatten,
    VGG19.classify, Sequential_forward.
  cbn [op_bind op_ret op_at op_size op_view Torch_exec].
  pose proof frame_Sequential. frame_steps.
Qed.

Lemma frame_DepthwiseSeparableConv (path : string)
    (self : DepthwiseSeparableConv.t) (x : Tensor Data) :
  frame (DepthwiseSeparableConv.forward (M := Exec Data Rng) path self x).
Proof.
  unfold DepthwiseSeparableConv.forward.
  cbn [op_bind op_ret op_at op_conv2d Torch_exec]. frame_steps.
Qed.

Lemma frame_MobileNet_forward (self : MobileNet.t) (x : Tensor Data) :
  frame (MobileNet_forward (Rng := Rng) self x).
Proof.
  unfold MobileNet_forward, MobileNet.forward, MobileNet.convolutions,
    MobileNet.flatten, MobileNet.dw.
  cbn [op_bind op_ret op_at op_conv2d op_relu op_adaptive_avg_pool2d
       op_linear op_size op_view Torch_exec].
  pose proof frame_DepthwiseSeparableConv. frame_steps.
Qed.


Lemma register_parameters_files (ps : list NamedParameter) :
  ∀ w : World Data Rng, files (foldl register_parameter w ps) = files w.
Proof.
  induction ps as [|q ps IH]; intros w; cbn; [done|].
  rewrite IH. unfold register_parameter. by destruct (k_reset_parameters _ _).
Qed.

(** The cells other than the construction of the model. *)
Section Cells.
Variable named_parameters : list NamedParameter.
Variable forward : Tensor Data → Exec Data Rng (Tensor Data).
Hypothesis frame_forward : ∀ x, frame (forward x).

Lemma summary_keeps (input_size : Size) (w : World Data Rng) :
  state_dict (summary forward input_size w) = state_dict w ∧
  files (summary forward input_size w) = files w ∧
  training (summary forward input_size w) = training w.
Proof.
  unfold summary. destruct (k_rand input_size (generator w)) as [d g].
  pose proof (frame_forward (mkTensor input_size d)
                (mkWorld (state_dict w) false g (files w))) as [Hs Hf].
  by destruct (forward _ _).
Qed.

Lemma run_cell_keeps (c : Cell) (s : Session Data Rng) :
  c ≠ NewModel →
  state_dict (world (run_cell named_parameters forward c s)) = state_dict (world s) ∧
  files (world (run_cell named_parameters forward c s)) = files (world s).
Proof.
  intros Hc. destruct c as [|input_size|size|size| |]; cbn; try done.
  - destruct (summary_keeps input_size (world s)) as (? & ? & ?). done.
  - unfold randn. destruct (k_randn size (generator (world s))) as [d g].
    pose proof (frame_forward (mkTensor size d)
                  (mkWorld (state_dict (world s)) (training (world s)) g
                     (files (world s)))) as [Hs Hf].
    by destruct (forward _ _).
  - unfold randn. destruct (k_randn size (generator (world s))) as [d g].
    pose proof (frame_forward (mkTensor size d)
                  (mkWorld (state_dict (world s)) (training (world s)) g
                     (files (world s)))) as [Hs Hf].
    by destruct (forward _ _) as [[e|y] w2].
Qed.

Lemma run_cells_keep (cs : list Cell) :
  Forall (λ c, c ≠ NewModel) cs →
  ∀ s : Session Data Rng,
    state_dict (world (run_cells named_parameters forward cs s)) = state_dict (world s) ∧
    files (world (run_cells named_parameters forward cs s)) = files (world s).
Proof.
  induction 1 as [|c cs Hc _ IH]; intros s; [done|].
  cbn. destruct (IH (run_cell named_parameters forward c s)) as [Hs Hf].
  destruct (run_cell_keeps c s Hc) as [Hs' Hf'].
  unfold run_cells in Hs, Hf. split; congruence.
Qed.

Lemma new_model_keeps_files (w : World Data Rng) :
  files (new_model named_parameters w) = files w.
Proof. unfold new_model. by rewrite register_parameters_files. Qed.

Lemma run_cells_after_new_model (cs : list Cell) (s : Session Data Rng) :
  Forall (λ c, c ≠ NewModel) cs →
  state_dict (world (run_cells named_parameters forward (NewModel :: cs) s))
  = state_dict (new_model named_parameters (world s)) ∧
  files (world (run_cells named_parameters forward (NewModel :: cs) s))
  = files (world s).
Proof.
  intros Hcs.
  destruct (run_cells_keep cs Hcs (run_cell named_parameters forward NewModel s))
    as [Hs Hf].
  split; [exact Hs|].
  etransitivity; [exact Hf|]. apply new_model_keeps_files.
Qed.

End Cells.

End Frame.

(** C7.  A forward pass of either model returns with the weights as they
    were (and with the files as they were), for every model, input and
    state; and in both notebooks the cells that follow the construction of
    the model leave the weights as the construction made them and write no
    file. *)
Theorem forward_keeps_parameters {Data Rng : Type} `{!Backend Data Rng} :
  (∀ (self : VGG19.t) (x : Tensor Data) (w : World Data Rng),
     state_dict (VGG19_forward self x w).2 = state_dict w ∧
     files (VGG19_forward self x w).2 = files w) ∧
  (∀ (self : MobileNet.t) (x : Tensor Data) (w : World Data Rng),
     state_dict (MobileNet_forward self x w).2 = state_dict w ∧
     files (MobileNet_forward self x w).2 = files w) ∧
  (∀ s : Session Data Rng,
     let built :=
       new_model (VGG19_named_parameters (VGG19.__init__ VGG19.default_num_classes))
         (world s) in
     state_dict (world (run_vgg_19 s)) = state_dict built ∧
     files (world (run_vgg_19 s)) = files (world s)) ∧
  (∀ s : Session Data Rng,
     let built :=
       new_model
         (MobileNet_named_parameters (MobileNet.__init__ MobileNet.default_num_classes))
         (world s) in
     state_dict (world (run_mobile_net s)) = state_dict built ∧
     files (world (run_mobile_net s)) = files (world s)).
Proof.
  split_and!.
  - intros self x w. apply frame_VGG19_forward.
  - intros self x w. apply frame_MobileNet_forward.
  - intros s built. subst built. unfold run_vgg_19, vgg_19_cells.
    apply run_cells_after_new_model.
    + intros x. apply frame_VGG19_forward.
    + repeat constructor; discriminate.
  - intros s built. subst built. unfold run_mobile_net, mobile_net_cells.
    apply run_cells_after_new_model.
    + intros x. apply frame_MobileNet_forward.
    + repeat constructor; discriminate.
Qed.

(** ** Depthwise-separable convolutions *)

Lemma exec_conv2d_ok {Data Rng : Type} `{!Backend Data Rng}
    (path : string) (c : Conv2d) (x weight bias : Tensor Data) (s : Size)
    (w : World Data Rng) :
  state_dict w !! child path "weight" = Some weight →
  state_dict w !! child path "bias" = Some bias →
  conv2d_size c (t_size x) = inr s →
  exec_conv2d path c x w
  = (inr (mkTensor s (k_conv2d c (t_data weight) (t_data bias) (t_data x))), w).
Proof.
  intros Hw Hb Hs. unfold exec_conv2d, bind, get_parameter, lift, ret.
  by rewrite Hw, Hb, Hs.
Qed.

Lemma DepthwiseSeparableConv_construct (i o s : N) :
  DepthwiseSeparableConv.construct i o s
  = if i =? 0 then inl GroupsNotPositive
    else inr (DepthwiseSeparableConv.__init__ i o s).
Proof.
  unfold DepthwiseSeparableConv.construct, Conv2d_check, DepthwiseSeparableConv.__init__.
  cbn [DepthwiseSeparableConv.depthwise DepthwiseSeparableConv.pointwise
       in_channels out_channels groups].
  destruct (N.eqb_spec i 0) as [->|Hi]; [done|].
  rewrite N.Div0.mod_same. unfold default_groups. by rewrite !N.mod_1_r.
Qed.

(** C4.  For [i] and [o] at least 1, [DepthwiseSeparableConv(i, o, s)] is
    built and holds a depthwise layer that is a 3x3 convolution from [i] to
    [i] channels in [i] groups, and a pointwise layer that is a 1x1
    convolution of stride 1 and padding 0 from [i] to [o] channels.  On an
    input of size [(n, i, h, w)] the depthwise layer keeps the [i]
    channels, the pointwise layer keeps the spatial size, and [forward]
    returns the pointwise convolution of the depthwise convolution of the
    input, reading the four weights and changing nothing.  Every child of
    the body of MobileNet is such a module, with [i] and [o] at least 1. *)
Theorem DepthwiseSeparableConv_forward_composes
    {Data Rng : Type} `{!Backend Data Rng}
    (path : string) (i o s n h w num_classes : N) (x : Tensor Data)
    (dw_weight dw_bias pw_weight pw_bias : Tensor Data) (st : World Data Rng) :
  let self := DepthwiseSeparableConv.__init__ i o s in
  let dw := DepthwiseSeparableConv.depthwise self in
  let pw := DepthwiseSeparableConv.pointwise self in
  let h' := window_out h 3 s 1 in
  let w' := window_out w 3 s 1 in
  1 ≤ i → 1 ≤ o →
  s ≠ 0 → 1 ≤ h → 1 ≤ w →
  t_size x = [n; i; h; w] →
  state_dict st !! child (child path "depthwise") "weight" = Some dw_weight →
  state_dict st !! child (child path "depthwise") "bias" = Some dw_bias →
  state_dict st !! child (child path "pointwise") "weight" = Some pw_weight →
  state_dict st !! child (child path "pointwise") "bias" = Some pw_bias →
  DepthwiseSeparableConv.construct i o s = inr self ∧
  dw = mkConv2d i i 3 s 1 i ∧
  pw = mkConv2d i o 1 1 0 1 ∧
  conv2d_size dw [n; i; h; w] = inr [n; i; h'; w'] ∧
  conv2d_size pw [n; i; h'; w'] = inr [n; o; h'; w'] ∧
  DepthwiseSeparableConv_forward_size path self [n; i; h; w] = inr [n; o; h'; w'] ∧
  DepthwiseSeparableConv.forward path self x st
  = (inr (mkTensor [n; o; h'; w']
            (k_conv2d pw (t_data pw_weight) (t_data pw_bias)
               (k_conv2d dw (t_data dw_weight) (t_data dw_bias) (t_data x)))),
     st) ∧
  Forall (λ c, ∃ i o s, 1 ≤ i ∧ 1 ≤ o ∧
                c.2 = MobileNet.CDepthwiseSeparableConv
                        (DepthwiseSeparableConv.__init__ i o s))
    (MobileNet.body (MobileNet.__init__ num_classes)).
Proof.
  intros self dw pw h' w' Hi Ho Hs Hh Hw Hx Hdw Hdb Hpw Hpb.
  assert (Hd : conv2d_size dw [n; i; h; w] = inr [n; i; h'; w']).
  { apply conv2d_size_3x3; (done || apply N.Div0.mod_same). }
  assert (Hp : conv2d_size pw [n; i; h'; w'] = inr [n; o; h'; w']).
  { apply conv2d_size_1x1; (done || apply window_out_pos || apply N.mod_1_r). }
  split_and!; try done.
  - rewrite DepthwiseSeparableConv_construct.
    destruct (N.eqb_spec i 0); [lia|done].
  - by apply DepthwiseSeparableConv_forward_size_ok.
  - unfold DepthwiseSeparableConv.forward.
    cbn [op_bind op_ret op_at op_conv2d Torch_exec].
    fold dw pw. unfold bind at 1, raise_in at 1.
    rewrite (exec_conv2d_ok _ dw x dw_weight dw_bias [n; i; h'; w'])
      by (done || by rewrite Hx).
    cbn [wrap]. unfold bind, raise_in.
    rewrite (exec_conv2d_ok _ pw _ pw_weight pw_bias [n; o; h'; w']) by done.
    reflexivity.
  - cbn. repeat constructor; do 3 eexists; (split_and!; [| |reflexivity]); lia.
Qed.

Lemma DepthwiseSeparableConv_forward_composes_witness :
  DepthwiseSeparableConv.forward "dw_conv2" (DepthwiseSeparableConv.__init__ 32 64 1)
    (mkTensor [1; 32; 112; 112] (Leaf "x")) built_mobile_net
  = (inr (mkTensor [1; 64; 112; 112]
            (Node3 "conv2d" (Leaf "init4") (Leaf "init5")
               (Node3 "conv2d" (Leaf "init2") (Leaf "init3") (Leaf "x")))),
     built_mobile_net).
Proof.
  pose proof (DepthwiseSeparableConv_forward_composes
                "dw_conv2" 32 64 1 1 112 112 1000
                (mkTensor [1; 32; 112; 112] (Leaf "x"))
                (mkTensor [32; 1; 3; 3] (Leaf "init2"))
                (mkTensor [32] (Leaf "init3"))
                (mkTensor [64; 32; 1; 1] (Leaf "init4"))
                (mkTensor [64] (Leaf "init5"))
                built_mobile_net) as H.
  cbv zeta in H.
  destruct H as (_ & _ & _ & _ & _ & _ & H & _).
  - lia.
  - lia.
  - discriminate.
  - lia.
  - lia.
  - reflexivity.
  - vm_compute. reflexivity.
  - vm_compute. reflexivity.
  - vm_compute. reflexivity.
  - vm_compute. reflexivity.
  - exact H.
Defined.

(** ** The notebooks run

    With the recording backend both notebooks run to their last cell: the
    weights are found where [forward] looks for them, the call of the model
    in the MobileNet notebook leaves an output of size [(1, 1000)], and the
    generator has moved on, which the weights have not. *)
Example run_mobile_net_output :
  t_size <$> output (run_mobile_net empty_session) = Some [1; 1000].
Proof. vm_compute. reflexivity. Qed.

Example run_vgg_19_draws :
  generator (world (run_vgg_19 empty_session)) = 34%nat ∧
  size (state_dict (world (run_vgg_19 empty_session))) = 30%nat.
Proof. vm_compute. split; reflexivity. Qed.

(** ** The execution agrees with the reading on sizes *)

Create HintDb agrees.

Section Agrees.
Context {Data Rng : Type} `{!Backend Data Rng}.

Lemma agrees_bind {A B A' B'} (π : A → A') (ρ : B → B')
    (m : Exec Data Rng A) (f : A → Exec Data Rng B) (r : Res A') (g : A' → Res B') :
  agrees π m r → (∀ a, agrees ρ (f a) (g (π a))) →
  agrees ρ (op_bind (Torch := Torch_exec) m f) (op_bind (Torch := Torch_size) r g).
Proof.
  intros Hm Hf w b w'. cbn [op_bind Torch_exec Torch_size]. unfold bind.
  destruct (m w) as [[e|a] w1] eqn:E; [discriminate|].
  rewrite (Hm _ _ _ E). apply Hf.
Qed.

Lemma agrees_ret {A} (π : A → Size) (a : A) :
  agrees (Data := Data) (Rng := Rng) π
    (op_ret (Torch := Torch_exec) a) (op_ret (Torch := Torch_size) (π a)).
Proof. intros w b w' [= <- _]. reflexivity. Qed.

Lemma agrees_at {A B} (π : A → B) (name : string) (m : Exec Data Rng A) (r : Res B) :
  agrees π m r →
  agrees π (op_at (Torch := Torch_exec) name m) (op_at (Torch := Torch_size) name r).
Proof.
  intros Hm w a w'. cbn [op_at Torch_exec Torch_size]. unfold raise_in.
  destruct (m w) as [[e|a1] w1] eqn:E; cbn [wrap]; [discriminate|].
  intros [= <- _]. by rewrite (Hm _ _ _ E).
Qed.

(** A layer that reads its two weights and checks the size. *)
Lemma agrees_checked (k1 k2 : string) (r : Res Size)
    (f : Tensor Data → Tensor Data → Data) :
  agrees (Rng := Rng) t_size
    (bind (get_parameter k1) (λ weight,
     bind (get_parameter k2) (λ bias,
     bind (lift r) (λ s, ret (mkTensor s (f weight bias)))))) r.
Proof.
  intros w a w'. unfold bind, get_parameter, lift, ret.
  destruct (state_dict w !! k1); [|discriminate].
  destruct (state_dict w !! k2); [|discriminate].
  destruct r as [e|s]; [discriminate|]. by intros [= <- _].
Qed.

Lemma agrees_conv2d (path : string) (c : Conv2d) (x : Tensor Data) :
  agrees (Rng := Rng) t_size
    (op_conv2d (Torch := Torch_exec) path c x)
    (op_conv2d (Torch := Torch_size) path c (t_size x)).
Proof.
  apply (agrees_checked _ _ _
           (λ weight bias, k_conv2d c (t_data weight) (t_data bias) (t_data x))).
Qed.

Lemma agrees_linear (path : string) (l : Linear) (x : Tensor Data) :
  agrees (Rng := Rng) t_size
    (op_linear (Torch := Torch_exec) path l x)
    (op_linear (Torch := Torch_size) path l (t_size x)).
Proof.
  apply (agrees_checked _ _ _
           (λ weight bias, k_linear l (t_data weight) (t_data bias) (t_data x))).
Qed.

Lemma agrees_relu (x : Tensor Data) :
  agrees (Rng := Rng) t_size
    (op_relu (Torch := Torch_exec) x) (op_relu (Torch := Torch_size) (t_size x)).
Proof. by intros w a w' [= <- _]. Qed.

Lemma agrees_lifted (r : Res Size) (d : Data) :
  agrees (Data := Data) (Rng := Rng) t_size
    (bind (lift r) (λ s, ret (mkTensor s d))) r.
Proof.
  intros w a w'. unfold bind, lift, ret.
  destruct r as [e|s]; [discriminate|]. by intros [= <- _].
Qed.

Lemma agrees_max_pool2d (m : MaxPool2d) (x : Tensor Data) :
  agrees (Rng := Rng) t_size
    (op_max_pool2d (Torch := Torch_exec) m x)
    (op_max_pool2d (Torch := Torch_size) m (t_size x)).
Proof. apply agrees_lifted. Qed.

Lemma agrees_adaptive_avg_pool2d (a : AdaptiveAvgPool2d) (x : Tensor Data) :
  agrees (Rng := Rng) t_size
    (op_adaptive_avg_pool2d (Torch := Torch_exec) a x)
    (op_adaptive_avg_pool2d (Torch := Torch_size) a (t_size x)).
Proof. apply agrees_lifted. Qed.

Lemma agrees_view (shape : list Z) (x : Tensor Data) :
  agrees (Rng := Rng) t_size
    (op_view (Torch := Torch_exec) shape x)
    (op_view (Torch := Torch_size) shape (t_size x)).
Proof. apply agrees_lifted. Qed.

Lemma agrees_dropout (d : Dropout) (x : Tensor Data) :
  agrees t_size
    (op_dropout (Torch := Torch_exec) d x)
    (op_dropout (Torch := Torch_size) d (t_size x)).
Proof.
  intros w a w'. cbn [op_dropout Torch_exec Torch_size]. unfold exec_dropout.
  destruct (training w).
  - destruct (k_dropout _ _ _ _). by intros [= <- _].
  - by intros [= <- _].
Qed.

Lemma agrees_size (x : Tensor Data) (dim : nat) :
  agrees (Rng := Rng) id
    (op_size (Torch := Torch_exec) x dim)
    (op_size (Torch := Torch_size) (t_size x) dim).
Proof.
  intros w a w'. cbn [op_size Torch_exec Torch_size]. unfold exec_size, lift.
  by intros [= -> _].
Qed.

#[local] Hint Resolve agrees_ret agrees_at agrees_conv2d agrees_linear agrees_relu
  agrees_max_pool2d agrees_adaptive_avg_pool2d agrees_view agrees_dropout
  agrees_size : agrees.

Ltac agrees_steps :=
  repeat first
    [ apply (agrees_bind t_size t_size); [|intros ?]
    | apply agrees_at
    | progress auto with agrees ].

Lemma agrees_Layer (path : string) (l : Layer) (x : Tensor Data) :
  agrees t_size
    (Layer_forward (M := Exec Data Rng) path l x)
    (Layer_forward (M := Res) path l (t_size x)).
Proof. destruct l; cbn [Layer_forward]; auto with agrees. Qed.

Lemma agrees_Sequential (self : Sequential) :
  ∀ (i : nat) (path : string) (x : Tensor Data),
    agrees t_size
      (Sequential_forward_from (M := Exec Data Rng) i path self x)
      (Sequential_forward_from (M := Res) i path self (t_size x)).
Proof.
  induction self as [|l rest IH]; intros i path x; cbn [Sequential_forward_from].
  - apply agrees_ret.
  - apply (agrees_bind t_size t_size); [|intros y; apply IH].
    apply agrees_at, agrees_Layer.
Qed.

Lemma agrees_flatten (x : Tensor Data) :
  agrees t_size
    (VGG19.flatten (M := Exec Data Rng) x) (VGG19.flatten (M := Res) (t_size x)).
Proof.
  unfold VGG19.flatten.
  apply (agrees_bind id t_size); [apply agrees_size|].
  intros n. apply agrees_view.
Qed.

(** A result that [forward] returns when it runs has the size that the
    reading on sizes gives. *)
Lemma VGG19_forward_agrees (self : VGG19.t) (x : Tensor Data) :
  agrees t_size (VGG19_forward (Rng := Rng) self x)
    (VGG19_forward_size self (t_size x)).
Proof.
  unfold VGG19_forward, VGG19_forward_size, VGG19.forward, VGG19.features,
    VGG19.classify, Sequential_forward.
  pose proof agrees_Sequential. pose proof agrees_flatten. agrees_steps.
Qed.

Lemma DepthwiseSeparableConv_forward_agrees (path : string)
    (self : DepthwiseSeparableConv.t) (x : Tensor Data) :
  agrees t_size
    (DepthwiseSeparableConv.forward (M := Exec Data Rng) path self x)
    (DepthwiseSeparableConv_forward_size path self (t_size x)).
Proof.
  unfold DepthwiseSeparableConv_forward_size, DepthwiseSeparableConv.forward.
  agrees_steps.
Qed.

Lemma MobileNet_forward_agrees (self : MobileNet.t) (x : Tensor Data) :
  agrees t_size (MobileNet_forward (Rng := Rng) self x)
    (MobileNet_forward_size self (t_size x)).
Proof.
  unfold MobileNet_forward, MobileNet_forward_size, MobileNet.forward,
    MobileNet.convolutions, MobileNet.dw.
  pose proof DepthwiseSeparableConv_forward_agrees as Hdw.
  unfold DepthwiseSeparableConv_forward_size in Hdw.
  pose proof agrees_flatten as Hfl.
  change (@VGG19.flatten) with (@MobileNet.flatten) in Hfl.
  agrees_steps.
Qed.

End Agrees.

(** * Further properties of the two networks *)

(** From here on [lia] also reasons about quotients by a constant. *)
Ltac Zify.zify_post_hook ::= Z.to_euclidean_division_equations.

(** ** The feature extractor of VGG19 on any spatial size *)

(** A 3x3 convolution of stride 1 and padding 1 keeps a spatial size that
    is not empty, and raises on an empty one. *)
Lemma conv2d_same_cases (i o g n h w : N) :
  g ≤ o → o mod g = 0 →
  (1 ≤ h ∧ 1 ≤ w ∧ conv2d_size (mkConv2d i o 3 1 1 g) [n; i; h; w] = inr [n; o; h; w]) ∨
  ((h = 0 ∨ w = 0) ∧ ∃ e, conv2d_size (mkConv2d i o 3 1 1 g) [n; i; h; w] = inl e).
Proof.
  intros Hg Hm.
  unfold conv2d_size. cbn [in_channels out_channels kernel_size stride padding groups].
  rewrite weight_fits_groups by done.
  rewrite N.eqb_refl. cbn [negb N.eqb].
  destruct (N.ltb_spec (h + 2 * 1) 3) as [Hh|Hh]; [right; split; [lia|eauto]|].
  destruct (N.ltb_spec (w + 2 * 1) 3) as [Hw|Hw]; [right; split; [lia|eauto]|].
  left. split_and!; [lia..|]. cbn [orb app]. unfold window_out.
  repeat f_equal; lia.
Qed.

(** A 2x2 pooling layer of stride 2 halves a spatial size of at least 2,
    rounding down, and raises on a smaller one. *)
Lemma max_pool2d_half_cases (n ch h w : N) :
  ch ≠ 0 →
  (2 ≤ h ∧ 2 ≤ w ∧
     max_pool2d_size (mkMaxPool2d 2 2) [n; ch; h; w] = inr [n; ch; h / 2; w / 2]) ∨
  ((h < 2 ∨ w < 2) ∧ ∃ e, max_pool2d_size (mkMaxPool2d 2 2) [n; ch; h; w] = inl e).
Proof.
  intros Hch. unfold max_pool2d_size. cbn [pool_kernel_size pool_stride].
  destruct (N.eqb_spec ch 0) as [|_]; [done|]. cbn [orb N.eqb].
  destruct (N.eqb_spec h 0) as [->|Hh0]; [right; split; [lia|eauto]|].
  destruct (N.eqb_spec w 0) as [->|Hw0]; [right; split; [lia|eauto]|].
  cbn [orb].
  destruct (N.ltb_spec h 2) as [Hh|Hh]; [right; split; [lia|eauto]|].
  destruct (N.ltb_spec w 2) as [Hw|Hw]; [right; split; [lia|eauto]|].
  left. split_and!; [done..|]. cbn [orb app]. unfold window_out.
  repeat f_equal; lia.
Qed.

(** One layer of the feature extractor at a time: either it succeeds, and
    the fact about the spatial size is kept, or the whole call raises. *)
Ltac features_step H :=
  lazymatch type of H with
  | context [conv2d_size (mkConv2d ?i ?o 3 1 1 ?g) [?n; ?i; ?h; ?w]] =>
      let E := fresh "E" in
      destruct (conv2d_same_cases i o g n h w ltac:(lia) ltac:(reflexivity))
        as [(? & ? & E)|(_ & ? & E)];
      rewrite E in H; cbn [wrap] in H; cbv beta iota in H;
      [|discriminate H]; clear E
  | context [max_pool2d_size (mkMaxPool2d 2 2) [?n; ?c; ?h; ?w]] =>
      let E := fresh "E" in
      destruct (max_pool2d_half_cases n c h w ltac:(done)) as [(? & ? & E)|(_ & ? & E)];
      rewrite E in H; cbn [wrap] in H; cbv beta iota in H;
      [|discriminate H]; clear E
  end.

Lemma VGG19_features_inv (num_classes n h w : N) (s : Size) :
  VGG19_features_size (VGG19.__init__ num_classes) [n; 3; h; w] = inr s →
  32 ≤ h ∧ 32 ≤ w ∧ s = [n; 512; h / 32; w / 32].
Proof.
  unfold VGG19_features_size, VGG19.features, Sequential_forward, VGG19.__init__.
  cbn [Sequential_forward_from Layer_forward VGG19.feature_extractor VGG19.conv
       VGG19.pool op_bind op_ret op_at op_conv2d op_relu op_max_pool2d Torch_size].
  unfold default_stride, default_groups.
  intros H. repeat features_step H.
  injection H as <-. split_and!; [lia..|].
  assert (h / 2 / 2 / 2 / 2 / 2 = h / 32) as -> by lia.
  assert (w / 2 / 2 / 2 / 2 / 2 = w / 32) as -> by lia.
  reflexivity.
Qed.

Lemma conv2d_same (i o g n h w : N) :
  g ≤ o → o mod g = 0 → 1 ≤ h → 1 ≤ w →
  conv2d_size (mkConv2d i o 3 1 1 g) [n; i; h; w] = inr [n; o; h; w].
Proof.
  intros Hg Hm Hh Hw.
  destruct (conv2d_same_cases i o g n h w Hg Hm) as [(_ & _ & E)|(? & _)]; [done|lia].
Qed.

Lemma max_pool2d_half (n ch h w : N) :
  ch ≠ 0 → 2 ≤ h → 2 ≤ w →
  max_pool2d_size (mkMaxPool2d 2 2) [n; ch; h; w] = inr [n; ch; h / 2; w / 2].
Proof.
  intros Hch Hh Hw.
  destruct (max_pool2d_half_cases n ch h w Hch) as [(_ & _ & E)|(? & _)]; [done|lia].
Qed.

Lemma VGG19_features_ok (num_classes n h w : N) :
  32 ≤ h → 32 ≤ w →
  VGG19_features_size (VGG19.__init__ num_classes) [n; 3; h; w]
  = inr [n; 512; h / 32; w / 32].
Proof.
  intros Hh Hw.
  unfold VGG19_features_size, VGG19.features, Sequential_forward, VGG19.__init__.
  cbn [Sequential_forward_from Layer_forward VGG19.feature_extractor VGG19.conv
       VGG19.pool op_bind op_ret op_at op_conv2d op_relu op_max_pool2d Torch_size].
  unfold default_stride, default_groups.
  repeat (first [ rewrite conv2d_same by (lia || reflexivity)
                | rewrite max_pool2d_half by (done || lia) ];
          cbn [wrap]; cbv beta iota).
  assert (h / 2 / 2 / 2 / 2 / 2 = h / 32) as -> by lia.
  assert (w / 2 / 2 / 2 / 2 / 2 = w / 32) as -> by lia.
  reflexivity.
Qed.

Lemma VGG19_features_error (self : VGG19.t) (x : Size) (e : Error) :
  VGG19_features_size self x = inl e → ∃ e', e = At "feature_extractor" e'.
Proof.
  unfold VGG19_features_size, VGG19.features. cbn [op_at Torch_size].
  destruct (Sequential_forward _ _ _) as [e'|s]; cbn [wrap]; [|discriminate].
  intros [= <-]. by exists e'.
Qed.

(** X1.  The feature extractor of VGG19 accepts an input of size
    [(n, 3, h, w)] exactly when [h] and [w] are at least 32, and then gives
    [(n, 512, h/32, w/32)], the quotients rounded down: five poolings, each
    halving the spatial size, and convolutions that keep it. *)
Theorem VGG19_features_any_size (num_classes n h w : N) (s : Size) :
  VGG19_features_size (VGG19.__init__ num_classes) [n; 3; h; w] = inr s
  ↔ 32 ≤ h ∧ 32 ≤ w ∧ s = [n; 512; h / 32; w / 32].
Proof.
  split.
  - apply VGG19_features_inv.
  - intros (Hh & Hw & ->). by apply VGG19_features_ok.
Qed.

Lemma VGG19_features_any_size_witness :
  VGG19_features_size (VGG19.__init__ 1000) [2; 3; 100; 70] = inr [2; 512; 3; 2].
Proof.
  apply (VGG19_features_any_size 1000 2 100 70 [2; 512; 3; 2]).
  split_and!; [lia|lia|reflexivity].
Defined.

(** X2.  On an input with [h] or [w] below 32 the call of VGG19 raises
    inside the feature extractor: no such input reaches the classifier. *)
Theorem VGG19_forward_too_small (num_classes n h w : N) :
  h < 32 ∨ w < 32 →
  ∃ e, VGG19_forward_size (VGG19.__init__ num_classes) [n; 3; h; w]
       = inl (At "feature_extractor" e).
Proof.
  intros Hsmall. rewrite VGG19_forward_size_unfold.
  destruct (VGG19_features_size _ _) as [e|s] eqn:E.
  - destruct (VGG19_features_error _ _ _ E) as [e' ->]. by exists e'.
  - apply VGG19_features_inv in E. lia.
Qed.

Lemma VGG19_forward_too_small_witness :
  ∃ e, VGG19_forward_size (VGG19.__init__ 1000) [1; 3; 31; 224]
       = inl (At "feature_extractor" e).
Proof. apply (VGG19_forward_too_small 1000 1 31 224). left. lia. Defined.

(** X3.  VGG19 accepts every contiguous input of size [(n, 3, h, w)] with
    [1 ≤ n] and [h], [w] from 224 to 255, not only 224x224, and returns
    size [(n, num_classes)]. *)
Theorem VGG19_forward_224_to_255 (num_classes n h w : N) :
  1 ≤ n → 224 ≤ h < 256 → 224 ≤ w < 256 →
  VGG19_forward_meta (VGG19.__init__ num_classes) (contiguous [n; 3; h; w])
  = inr (contiguous [n; num_classes]).
Proof.
  intros Hn Hh Hw. rewrite VGG19_forward_contiguous, VGG19_forward_size_unfold.
  rewrite VGG19_features_ok by lia.
  assert (h / 32 = 7) as -> by lia. assert (w / 32 = 7) as -> by lia.
  rewrite flatten_size by lia. by rewrite VGG19_classify_25088.
Qed.

Lemma VGG19_forward_224_to_255_witness :
  VGG19_forward_meta (VGG19.__init__ 10) (contiguous [3; 3; 255; 230])
  = inr (contiguous [3; 10]).
Proof. apply (VGG19_forward_224_to_255 10 3 255 230); lia. Defined.

(** X4.  For a contiguous input with [1 ≤ n] and [h], [w] at least 32, what
    VGG19 returns is decided by [k = 512 * (h/32) * (w/32)]: size
    [(n, num_classes)] if [k] is 25088, and otherwise the mismatch of
    [(n, k)] with the first linear layer. *)
Theorem VGG19_forward_by_spatial_size (num_classes n h w : N) :
  1 ≤ n → 32 ≤ h → 32 ≤ w →
  let k := 512 * (h / 32) * (w / 32) in
  VGG19_forward_meta (VGG19.__init__ num_classes) (contiguous [n; 3; h; w])
  = if k =? 25088 then inr (contiguous [n; num_classes])
    else inl (At "classifier" (At "0" (MatMulMismatch n k 25088 4096))).
Proof.
  intros Hn Hh Hw k. rewrite VGG19_forward_contiguous, VGG19_forward_size_unfold.
  rewrite VGG19_features_ok by lia. rewrite flatten_size by lia.
  assert (numel [512; h / 32; w / 32] = k) as ->.
  { unfold numel, k. cbn [foldr]. lia. }
  destruct (N.eqb_spec k 25088) as [->|Hk].
  - by rewrite VGG19_classify_25088.
  - by rewrite VGG19_classify_other.
Qed.

Lemma VGG19_forward_by_spatial_size_witness :
  VGG19_forward_meta (VGG19.__init__ 1000) (contiguous [2; 3; 32; 1568])
  = inr (contiguous [2; 1000]) ∧
  VGG19_forward_meta (VGG19.__init__ 1000) (contiguous [2; 3; 256; 256])
  = inl (At "classifier" (At "0" (MatMulMismatch 2 32768 25088 4096))).
Proof.
  split.
  - apply (VGG19_forward_by_spatial_size 1000 2 32 1568); lia.
  - apply (VGG19_forward_by_spatial_size 1000 2 256 256); lia.
Defined.

(** ** Inputs that the first convolution refuses *)

Lemma conv2d_size_channels (c : Conv2d) (n ch h w : N) :
  stride c ≠ 0 → groups c ≤ out_channels c → out_channels c mod groups c = 0 →
  ch ≠ in_channels c →
  conv2d_size c [n; ch; h; w] = inl (ChannelMismatch (in_channels c) ch).
Proof.
  intros Hs Hg Hm Hch. unfold conv2d_size.
  rewrite weight_fits_groups by done.
  destruct (N.eqb_spec (stride c) 0); [done|].
  by destruct (N.eqb_spec ch (in_channels c)).
Qed.

Lemma conv2d_size_rank (c : Conv2d) (x : Size) :
  length x ≠ 3%nat → length x ≠ 4%nat →
  conv2d_size c x = inl (BadRank (length x)).
Proof.
  intros H3 H4. unfold conv2d_size.
  destruct x as [|a [|b [|d [|e [|f x]]]]]; cbn in *; done.
Qed.

Lemma conv2d_size_empty (i o g s n h w : N) :
  s ≠ 0 → g ≤ o → o mod g = 0 →
  h = 0 ∨ w = 0 →
  conv2d_size (mkConv2d i o 3 s 1 g) [n; i; h; w]
  = inl (KernelTooLarge (h + 2) (w + 2) 3).
Proof.
  intros Hs Hg Hm H0. unfold conv2d_size.
  cbn [in_channels out_channels kernel_size stride padding groups].
  rewrite weight_fits_groups by done.
  rewrite N.eqb_refl. cbn [negb]. destruct (N.eqb_spec s 0); [done|].
  assert ((h + 2 * 1 <? 3) || (w + 2 * 1 <? 3) = true) as ->.
  { apply orb_true_iff. rewrite !N.ltb_lt. lia. }
  reflexivity.
Qed.

(** The first layer of each model, on which the whole call depends. *)
Lemma VGG19_forward_size_first (num_classes : N) (x : Size) (e : Error) :
  conv2d_size (mkConv2d 3 64 3 1 1 1) x = inl e →
  VGG19_forward_size (VGG19.__init__ num_classes) x
  = inl (At "feature_extractor" (At "0" e)).
Proof.
  intros E. unfold VGG19_forward_size, VGG19.forward, VGG19.features,
    Sequential_forward, VGG19.__init__.
  cbn [Sequential_forward_from Layer_forward VGG19.feature_extractor VGG19.conv
       op_bind op_ret op_at op_conv2d Torch_size].
  unfold default_stride, default_groups. by rewrite E.
Qed.

Lemma MobileNet_forward_size_first (num_classes : N) (x : Size) (e : Error) :
  conv2d_size (mkConv2d 3 32 3 2 1 1) x = inl e →
  MobileNet_forward_size (MobileNet.__init__ num_classes) x = inl (At "conv1" e).
Proof.
  intros E. unfold MobileNet_forward_size, MobileNet.forward, MobileNet.convolutions,
    MobileNet.__init__.
  cbn [op_bind op_ret op_at op_conv2d Torch_size MobileNet.conv1].
  unfold default_groups. by rewrite E.
Qed.

(** X5.  VGG19 is made for three input channels and for tensors of rank 4
    (or 3): on another channel count, on another rank, or on an empty
    spatial size, the call raises in the first convolution, child 0 of the
    feature extractor. *)
Theorem VGG19_forward_bad_input (num_classes : N) :
  (∀ n ch h w, ch ≠ 3 →
     VGG19_forward_size (VGG19.__init__ num_classes) [n; ch; h; w]
     = inl (At "feature_extractor" (At "0" (ChannelMismatch 3 ch)))) ∧
  (∀ x, length x ≠ 3%nat → length x ≠ 4%nat →
     VGG19_forward_size (VGG19.__init__ num_classes) x
     = inl (At "feature_extractor" (At "0" (BadRank (length x))))) ∧
  (∀ n h w, h = 0 ∨ w = 0 →
     VGG19_forward_size (VGG19.__init__ num_classes) [n; 3; h; w]
     = inl (At "feature_extractor" (At "0" (KernelTooLarge (h + 2) (w + 2) 3)))).
Proof.
  split_and!.
  - intros n ch h w Hch. apply VGG19_forward_size_first.
    by rewrite conv2d_size_channels by (done || reflexivity).
  - intros x H3 H4. apply VGG19_forward_size_first.
    by rewrite conv2d_size_rank.
  - intros n h w H0. apply VGG19_forward_size_first.
    by rewrite conv2d_size_empty by (done || reflexivity).
Qed.

Lemma VGG19_forward_bad_input_witness :
  VGG19_forward_size (VGG19.__init__ 1000) [1; 1; 224; 224]
  = inl (At "feature_extractor" (At "0" (ChannelMismatch 3 1))) ∧
  VGG19_forward_size (VGG19.__init__ 1000) [224; 224]
  = inl (At "feature_extractor" (At "0" (BadRank 2))) ∧
  VGG19_forward_size (VGG19.__init__ 1000) [1; 3; 0; 224]
  = inl (At "feature_extractor" (At "0" (KernelTooLarge 2 226 3))).
Proof.
  destruct (VGG19_forward_bad_input 1000) as (Hch & Hrank & Hempty).
  split_and!.
  - apply (Hch 1 1 224 224). discriminate.
  - apply (Hrank [224; 224]); discriminate.
  - apply (Hempty 1 0 224). by left.
Defined.

(** X6.  MobileNet likewise: another channel count than three, another
    rank than 4 (or 3), or an empty spatial size raises in [conv1]. *)
Theorem MobileNet_forward_bad_input (num_classes : N) :
  (∀ n ch h w, ch ≠ 3 →
     MobileNet_forward_size (MobileNet.__init__ num_classes) [n; ch; h; w]
     = inl (At "conv1" (ChannelMismatch 3 ch))) ∧
  (∀ x, length x ≠ 3%nat → length x ≠ 4%nat →
     MobileNet_forward_size (MobileNet.__init__ num_classes) x
     = inl (At "conv1" (BadRank (length x)))) ∧
  (∀ n h w, h = 0 ∨ w = 0 →
     MobileNet_forward_size (MobileNet.__init__ num_classes) [n; 3; h; w]
     = inl (At "conv1" (KernelTooLarge (h + 2) (w + 2) 3))).
Proof.
  split_and!.
  - intros n ch h w Hch. apply MobileNet_forward_size_first.
    by rewrite conv2d_size_channels by (done || reflexivity).
  - intros x H3 H4. apply MobileNet_forward_size_first.
    by rewrite conv2d_size_rank.
  - intros n h w H0. apply MobileNet_forward_size_first.
    by rewrite conv2d_size_empty by (done || reflexivity).
Qed.

Lemma MobileNet_forward_bad_input_witness :
  MobileNet_forward_size (MobileNet.__init__ 1000) [1; 4; 224; 224]
  = inl (At "conv1" (ChannelMismatch 3 4)) ∧
  MobileNet_forward_size (MobileNet.__init__ 1000) [3]
  = inl (At "conv1" (BadRank 1)) ∧
  MobileNet_forward_size (MobileNet.__init__ 1000) [1; 3; 224; 0]
  = inl (At "conv1" (KernelTooLarge 226 2 3)).
Proof.
  destruct (MobileNet_forward_bad_input 1000) as (Hch & Hrank & Hempty).
  split_and!.
  - apply (Hch 1 4 224 224). discriminate.
  - apply (Hrank [3]); discriminate.
  - apply (Hempty 1 224 0). by right.
Defined.

(** ** The spatial size through MobileNet *)

Lemma MobileNet_spatial_ceil (h : N) : 1 ≤ h → MobileNet_spatial h = (h + 31) / 32.
Proof.
  intros Hh. unfold MobileNet_spatial. cbn [foldl]. unfold window_out.
  rewrite !N.div_1_r. lia.
Qed.

(** X7.  On an input of size [(n, 3, h, w)] with [h], [w] at least 1 the
    convolutions of MobileNet leave [(n, 1024, ceil(h/32), ceil(w/32))]: five
    of them have stride 2 and each halves the spatial size, rounding up.
    For a batch that is not empty [forward] then returns
    [(n, num_classes)], for every number of classes. *)
Theorem MobileNet_forward_spatial (num_classes n h w : N) :
  1 ≤ n → 1 ≤ h → 1 ≤ w →
  let self := MobileNet.__init__ num_classes in
  MobileNet_convolutions_size self [n; 3; h; w]
  = inr [n; 1024; (h + 31) / 32; (w + 31) / 32] ∧
  MobileNet_forward_size self [n; 3; h; w] = inr [n; num_classes].
Proof.
  intros Hn Hh Hw self.
  assert (Hc : MobileNet_convolutions_size self [n; 3; h; w]
               = inr [n; 1024; (h + 31) / 32; (w + 31) / 32]).
  { unfold self. rewrite MobileNet_convolutions_ok by done.
    by rewrite !MobileNet_spatial_ceil. }
  split; [done|].
  rewrite MobileNet_forward_size_unfold, Hc.
  assert (Hpool : adaptive_avg_pool2d_size (MobileNet.avg_pool self)
            [n; 1024; (h + 31) / 32; (w + 31) / 32] = inr [n; 1024; 1; 1])
    by reflexivity.
  rewrite Hpool. cbn [wrap].
  rewrite MobileNet_flatten_size_eq, flatten_size by lia.
  cbn. by rewrite N.eqb_refl.
Qed.

Lemma MobileNet_forward_spatial_witness :
  MobileNet_convolutions_size (MobileNet.__init__ 10) [2; 3; 225; 33]
  = inr [2; 1024; 8; 2] ∧
  MobileNet_forward_size (MobileNet.__init__ 10) [2; 3; 225; 33] = inr [2; 10].
Proof. apply (MobileNet_forward_spatial 10 2 225 33); lia. Defined.

(** ** Parameter counts as the classes vary *)

Lemma total_params_app (ps qs : list NamedParameter) :
  total_params (ps ++ qs) = total_params ps + total_params qs.
Proof.
  unfold total_params. induction ps as [|q ps IH]; cbn; [done|].
  unfold total_params in IH. cbn in IH. rewrite IH. lia.
Qed.

Lemma trainable_params_all (ps : list NamedParameter) :
  Forall (λ q, requires_grad q = true) ps →
  trainable_params ps = total_params ps ∧ non_trainable_params ps = 0.
Proof.
  unfold trainable_params, non_trainable_params.
  induction 1 as [|q ps Hq _ [IH1 IH2]]; [done|].
  rewrite filter_cons_True by done.
  rewrite filter_cons_False by (rewrite Hq; discriminate).
  split; [|done].
  change (q :: ?l) with ([q] ++ l). rewrite !total_params_app. by rewrite IH1.
Qed.

Lemma VGG19_named_parameters_split (num_classes : N) :
  VGG19_named_parameters (VGG19.__init__ num_classes)
  = take 28 (VGG19_named_parameters (VGG19.__init__ 0)) ++
    Linear_parameters "classifier.6" (mkLinear 4096 num_classes).
Proof. vm_compute. reflexivity. Qed.

Lemma MobileNet_named_parameters_split (num_classes : N) :
  MobileNet_named_parameters (MobileNet.__init__ num_classes)
  = take 54 (MobileNet_named_parameters (MobileNet.__init__ 0)) ++
    Linear_parameters "fc" (mkLinear 1024 num_classes).
Proof. vm_compute. reflexivity. Qed.

Lemma Linear_total_params (path : string) (i o : N) :
  total_params (Linear_parameters path (mkLinear i o)) = (i + 1) * o.
Proof. unfold total_params, Linear_parameters, numel. cbn. lia. Qed.

(** X8.  The parameter counts as functions of the number of classes: only
    the last linear layer depends on it.  VGG19 has
    [130131008 + 4097 * num_classes] parameters and MobileNet
    [3196032 + 1025 * num_classes], all of them trainable. *)
Theorem total_params_by_num_classes (num_classes : N) :
  let vgg_19 := VGG19_named_parameters (VGG19.__init__ num_classes) in
  let mobile_net := MobileNet_named_parameters (MobileNet.__init__ num_classes) in
  total_params vgg_19 = 130131008 + 4097 * num_classes ∧
  total_params mobile_net = 3196032 + 1025 * num_classes ∧
  trainable_params vgg_19 = total_params vgg_19 ∧
  trainable_params mobile_net = total_params mobile_net ∧
  non_trainable_params vgg_19 = 0 ∧
  non_trainable_params mobile_net = 0.
Proof.
  intros vgg_19 mobile_net.
  assert (Hv : Forall (λ q, requires_grad q = true) vgg_19).
  { unfold vgg_19. rewrite VGG19_named_parameters_split. apply Forall_app. split.
    - vm_compute. repeat constructor.
    - repeat constructor. }
  assert (Hm : Forall (λ q, requires_grad q = true) mobile_net).
  { unfold mobile_net. rewrite MobileNet_named_parameters_split. apply Forall_app. split.
    - vm_compute. repeat constructor.
    - repeat constructor. }
  destruct (trainable_params_all _ Hv) as [-> ->].
  destruct (trainable_params_all _ Hm) as [-> ->].
  split_and!; try done.
  - unfold vgg_19. rewrite VGG19_named_parameters_split, total_params_app.
    rewrite Linear_total_params.
    assert (total_params (take 28 (VGG19_named_parameters (VGG19.__init__ 0)))
            = 130131008) as -> by (vm_compute; reflexivity).
    lia.
  - unfold mobile_net. rewrite MobileNet_named_parameters_split, total_params_app.
    rewrite Linear_total_params.
    assert (total_params (take 54 (MobileNet_named_parameters (MobileNet.__init__ 0)))
            = 3196032) as -> by (vm_compute; reflexivity).
    lia.
Qed.

(** X9.  A depthwise-separable convolution from [i] to [o] channels has
    [10 * i + i * o + o] parameters, whatever its stride, where a plain 3x3
    convolution between the same channels has [9 * i * o + o]: fewer, as
    the notebook says, as soon as there are two output channels. *)
Theorem DepthwiseSeparableConv_fewer_parameters (path : string) (i o s : N) :
  1 ≤ i → 2 ≤ o →
  let separable :=
    DepthwiseSeparableConv_parameters path (DepthwiseSeparableConv.__init__ i o s) in
  let plain := Conv2d_parameters path (mkConv2d i o 3 s 1 default_groups) in
  total_params separable = 10 * i + i * o + o ∧
  total_params plain = 9 * i * o + o ∧
  total_params separable < total_params plain.
Proof.
  intros Hi Ho separable plain.
  assert (Hs : total_params separable = 10 * i + i * o + o).
  { unfold separable, total_params, DepthwiseSeparableConv_parameters,
      Conv2d_parameters, DepthwiseSeparableConv.__init__, numel, default_groups.
    cbn [DepthwiseSeparableConv.depthwise DepthwiseSeparableConv.pointwise
         in_channels out_channels kernel_size groups app fmap list_fmap foldr
         p_size].
    rewrite N.div_same by lia. rewrite N.div_1_r. lia. }
  assert (Hp : total_params plain = 9 * i * o + o).
  { unfold plain, total_params, Conv2d_parameters, numel, default_groups.
    cbn [in_channels out_channels kernel_size groups fmap list_fmap foldr p_size].
    rewrite N.div_1_r. lia. }
  split_and!; [done..|]. rewrite Hs, Hp. nia.
Qed.

Lemma DepthwiseSeparableConv_fewer_parameters_witness :
  total_params
    (DepthwiseSeparableConv_parameters "dw_conv2" (DepthwiseSeparableConv.__init__ 32 64 1))
  = 2432 ∧
  total_params (Conv2d_parameters "dw_conv2" (mkConv2d 32 64 3 1 1 1)) = 18496.
Proof.
  destruct (DepthwiseSeparableConv_fewer_parameters "dw_conv2" 32 64 1) as (Hs & Hp & _);
    [lia|lia|].
  split; [exact Hs|exact Hp].
Defined.

(** ** What the construction of a model stores *)

Section Construction.
Context {Data Rng : Type} `{!Backend Data Rng}.

Lemma register_parameter_lookup (w : World Data Rng) (q : NamedParameter) (k : string) :
  state_dict (register_parameter w q) !! k
  = if decide (p_name q = k)
    then Some (mkTensor (p_size q) (k_reset_parameters (p_size q) (generator w)).1)
    else state_dict w !! k.
Proof.
  unfold register_parameter. destruct (k_reset_parameters _ _) as [d g]. cbn.
  apply lookup_insert.
Qed.

Lemma register_parameters_other (ps : list NamedParameter) :
  ∀ (w : World Data Rng) (k : string),
    k ∉ p_name <$> ps →
    state_dict (foldl register_parameter w ps) !! k = state_dict w !! k.
Proof.
  induction ps as [|q ps IH]; intros w k Hk; cbn; [done|].
  cbn in Hk. apply not_elem_of_cons in Hk as [Hq Hps].
  rewrite IH by done. rewrite register_parameter_lookup.
  by destruct (decide (p_name q = k)).
Qed.

Lemma register_parameters_lookup (ps : list NamedParameter) :
  NoDup (p_name <$> ps) →
  ∀ (w : World Data Rng) (q : NamedParameter),
    q ∈ ps →
    ∃ d, state_dict (foldl register_parameter w ps) !! p_name q
         = Some (mkTensor (p_size q) d).
Proof.
  induction ps as [|q0 ps IH]; intros Hnd w q Hq; [by apply elem_of_nil in Hq|].
  cbn in Hnd. apply list.NoDup_cons in Hnd as [Hfresh Hnd].
  apply elem_of_cons in Hq as [->|Hq]; cbn.
  - rewrite register_parameters_other by done.
    rewrite register_parameter_lookup. rewrite decide_True by done. eauto.
  - by apply IH.
Qed.

Lemma register_parameters_dom (ps : list NamedParameter) :
  ∀ (w : World Data Rng) (k : string),
    is_Some (state_dict (foldl register_parameter w ps) !! k) →
    k ∈ p_name <$> ps ∨ is_Some (state_dict w !! k).
Proof.
  induction ps as [|q ps IH]; intros w k Hk; cbn in *; [by right|].
  destruct (IH _ _ Hk) as [Hin|Hw].
  - left. by apply elem_of_cons; right.
  - rewrite register_parameter_lookup in Hw.
    destruct (decide (p_name q = k)) as [<-|_].
    + left. apply elem_of_cons. by left.
    + by right.
Qed.

Lemma register_parameters_training (ps : list NamedParameter) :
  ∀ w : World Data Rng, training (foldl register_parameter w ps) = training w.
Proof.
  induction ps as [|q ps IH]; intros w; cbn; [done|].
  rewrite IH. unfold register_parameter. by destruct (k_reset_parameters _ _).
Qed.

(** What [new_model] leaves in the store, for parameters with distinct
    names. *)
Lemma new_model_stores (ps : list NamedParameter) (w : World Data Rng) :
  NoDup (p_name <$> ps) →
  (∀ q, q ∈ ps →
     ∃ d, state_dict (new_model ps w) !! p_name q = Some (mkTensor (p_size q) d)) ∧
  (∀ k, is_Some (state_dict (new_model ps w) !! k) → k ∈ p_name <$> ps) ∧
  training (new_model ps w) = true.
Proof.
  intros Hnd. unfold new_model. split_and!.
  - intros q Hq. by apply register_parameters_lookup.
  - intros k Hk. destruct (register_parameters_dom _ _ _ Hk) as [?|Hw]; [done|].
    cbn in Hw. rewrite lookup_empty in Hw. by destruct Hw.
  - by rewrite register_parameters_training.
Qed.

End Construction.

(** ** Running [forward] with the weights in place *)

Section Simulates.
Context {Data Rng : Type} `{!Backend Data Rng}.
Variable ks : list string.

Lemma simulates_bind {A B A' B'} (π : A → A') (ρ : B → B')
    (m : Exec Data Rng A) (f : A → Exec Data Rng B) (r : Res A') (g : A' → Res B') :
  simulates ks π m r → (∀ a, simulates ks ρ (f a) (g (π a))) →
  simulates ks ρ (op_bind (Torch := Torch_exec) m f) (op_bind (Torch := Torch_size) r g).
Proof.
  intros Hm Hf w Hw. cbn [op_bind Torch_exec Torch_size]. unfold bind.
  destruct (Hm w Hw) as [Hr Hs].
  destruct (m w) as [[e|a] w1]; cbn in Hr, Hs; subst r; [done|].
  assert (Hw1 : present ks w1).
  { intros k Hk. rewrite Hs. by apply Hw. }
  destruct (Hf a w1 Hw1) as [Hr' Hs']. split; [done|]. by rewrite Hs'.
Qed.

Lemma simulates_ret {A} (π : A → Size) (a : A) :
  simulates (Data := Data) (Rng := Rng) ks π
    (op_ret (Torch := Torch_exec) a) (op_ret (Torch := Torch_size) (π a)).
Proof. by intros w Hw. Qed.

Lemma simulates_at {A B} (π : A → B) (name : string) (m : Exec Data Rng A) (r : Res B) :
  simulates ks π m r →
  simulates ks π (op_at (Torch := Torch_exec) name m) (op_at (Torch := Torch_size) name r).
Proof.
  intros Hm w Hw. cbn [op_at Torch_exec Torch_size]. unfold raise_in.
  destruct (Hm w Hw) as [Hr Hs].
  destruct (m w) as [[e|a] w1]; cbn in Hr, Hs; by subst r.
Qed.

(** A layer that reads its two weights and checks the size. *)
Lemma simulates_checked (k1 k2 : string) (r : Res Size)
    (f : Tensor Data → Tensor Data → Data) :
  k1 ∈ ks → k2 ∈ ks →
  simulates (Rng := Rng) ks t_size
    (bind (get_parameter k1) (λ weight,
     bind (get_parameter k2) (λ bias,
     bind (lift r) (λ s, ret (mkTensor s (f weight bias)))))) r.
Proof.
  intros H1 H2 w Hw. unfold bind, get_parameter, lift, ret.
  destruct (Hw k1 H1) as [t1 ->], (Hw k2 H2) as [t2 ->].
  by destruct r.
Qed.

Lemma simulates_conv2d (path : string) (c : Conv2d) (x : Tensor Data) :
  child path "weight" ∈ ks → child path "bias" ∈ ks →
  simulates (Rng := Rng) ks t_size
    (op_conv2d (Torch := Torch_exec) path c x)
    (op_conv2d (Torch := Torch_size) path c (t_size x)).
Proof.
  apply (simulates_checked _ _ _
           (λ weight bias, k_conv2d c (t_data weight) (t_data bias) (t_data x))).
Qed.

Lemma simulates_linear (path : string) (l : Linear) (x : Tensor Data) :
  child path "weight" ∈ ks → child path "bias" ∈ ks →
  simulates (Rng := Rng) ks t_size
    (op_linear (Torch := Torch_exec) path l x)
    (op_linear (Torch := Torch_size) path l (t_size x)).
Proof.
  apply (simulates_checked _ _ _
           (λ weight bias, k_linear l (t_data weight) (t_data bias) (t_data x))).
Qed.

Lemma simulates_lifted (r : Res Size) (d : Data) :
  simulates (Data := Data) (Rng := Rng) ks t_size
    (bind (lift r) (λ s, ret (mkTensor s d))) r.
Proof. intros w Hw. unfold bind, lift, ret. by destruct r. Qed.

Lemma simulates_relu (x : Tensor Data) :
  simulates (Rng := Rng) ks t_size
    (op_relu (Torch := Torch_exec) x) (op_relu (Torch := Torch_size) (t_size x)).
Proof. by intros w Hw. Qed.

Lemma simulates_max_pool2d (m : MaxPool2d) (x : Tensor Data) :
  simulates (Rng := Rng) ks t_size
    (op_max_pool2d (Torch := Torch_exec) m x)
    (op_max_pool2d (Torch := Torch_size) m (t_size x)).
Proof. apply simulates_lifted. Qed.

Lemma simulates_adaptive_avg_pool2d (a : AdaptiveAvgPool2d) (x : Tensor Data) :
  simulates (Rng := Rng) ks t_size
    (op_adaptive_avg_pool2d (Torch := Torch_exec) a x)
    (op_adaptive_avg_pool2d (Torch := Torch_size) a (t_size x)).
Proof. apply simulates_lifted. Qed.

Lemma simulates_view (shape : list Z) (x : Tensor Data) :
  simulates (Rng := Rng) ks t_size
    (op_view (Torch := Torch_exec) shape x)
    (op_view (Torch := Torch_size) shape (t_size x)).
Proof. apply simulates_lifted. Qed.

Lemma simulates_dropout (d : Dropout) (x : Tensor Data) :
  simulates ks t_size
    (op_dropout (Torch := Torch_exec) d x)
    (op_dropout (Torch := Torch_size) d (t_size x)).
Proof.
  intros w Hw. cbn [op_dropout Torch_exec Torch_size]. unfold exec_dropout.
  destruct (training w); [|done]. by destruct (k_dropout _ _ _ _).
Qed.

Lemma simulates_size (x : Tensor Data) (dim : nat) :
  simulates (Rng := Rng) ks id
    (op_size (Torch := Torch_exec) x dim)
    (op_size (Torch := Torch_size) (t_size x) dim).
Proof.
  intros w Hw. cbn [op_size Torch_exec Torch_size]. unfold exec_size, lift. cbn.
  by destruct (size_at (t_size x) dim).
Qed.

Lemma simulates_flatten (x : Tensor Data) :
  simulates ks t_size
    (VGG19.flatten (M := Exec Data Rng) x) (VGG19.flatten (M := Res) (t_size x)).
Proof.
  unfold VGG19.flatten.
  apply (simulates_bind id t_size); [apply simulates_size|].
  intros n. apply simulates_view.
Qed.

Lemma simulates_Layer (path : string) (l : Layer) (x : Tensor Data) :
  parameter_names (Layer_parameters path l) ⊆ ks →
  simulates ks t_size
    (Layer_forward (M := Exec Data Rng) path l x)
    (Layer_forward (M := Res) path l (t_size x)).
Proof.
  intros Hks. destruct l; cbn [Layer_forward].
  - apply simulates_conv2d; apply Hks; cbn; set_solver.
  - apply simulates_relu.
  - apply simulates_max_pool2d.
  - apply simulates_linear; apply Hks; cbn; set_solver.
  - apply simulates_dropout.
Qed.

Lemma simulates_Sequential (self : Sequential) :
  ∀ (i : nat) (path : string) (x : Tensor Data),
    parameter_names (Sequential_parameters_from i path self) ⊆ ks →
    simulates ks t_size
      (Sequential_forward_from (M := Exec Data Rng) i path self x)
      (Sequential_forward_from (M := Res) i path self (t_size x)).
Proof.
  induction self as [|l rest IH]; intros i path x Hks; cbn [Sequential_forward_from].
  - apply simulates_ret.
  - cbn [Sequential_parameters_from] in Hks.
    unfold parameter_names in Hks. rewrite fmap_app in Hks.
    apply (simulates_bind t_size t_size).
    + apply simulates_at, simulates_Layer.
      intros k Hk. apply Hks, elem_of_app. by left.
    + intros y. apply IH. intros k Hk. apply Hks, elem_of_app. by right.
Qed.

End Simulates.

Section Models.
Context {Data Rng : Type} `{!Backend Data Rng}.

Lemma new_model_present (ps : list NamedParameter) (w : World Data Rng) :
  NoDup (parameter_names ps) → present (parameter_names ps) (new_model ps w).
Proof.
  intros Hnd k Hk. apply list_elem_of_fmap_1 in Hk as (q & -> & Hq).
  destruct (new_model_stores ps w Hnd) as (Hst & _ & _).
  destruct (Hst q Hq) as [d ->]. eauto.
Qed.

Lemma MobileNet_parameter_names (self : MobileNet.t) :
  parameter_names (MobileNet_named_parameters self)
  = parameter_names (MobileNet_named_parameters (MobileNet.__init__ 0)).
Proof. reflexivity. Qed.

Ltac known_key :=
  rewrite MobileNet_parameter_names;
  apply (bool_decide_unpack _); vm_compute; exact I.

Ltac simulates_steps :=
  repeat first
    [ apply (simulates_bind _ t_size t_size); [|intros ?]
    | apply simulates_at
    | apply simulates_conv2d; [known_key|known_key]
    | apply simulates_linear; [known_key|known_key]
    | apply simulates_relu
    | apply simulates_adaptive_avg_pool2d
    | apply simulates_ret ].

Lemma MobileNet_forward_simulates (self : MobileNet.t) (x : Tensor Data) :
  simulates (parameter_names (MobileNet_named_parameters self)) t_size
    (MobileNet_forward (Rng := Rng) self x) (MobileNet_forward_size self (t_size x)).
Proof.
  unfold MobileNet_forward, MobileNet_forward_size, MobileNet.forward,
    MobileNet.convolutions, MobileNet.dw, DepthwiseSeparableConv.forward.
  pose proof (simulates_flatten (Data := Data) (Rng := Rng)) as Hfl.
  change (@VGG19.flatten) with (@MobileNet.flatten) in Hfl.
  simulates_steps. apply Hfl.
Qed.

End Models.

Lemma VGG19_parameter_names_NoDup (num_classes : N) :
  NoDup (parameter_names (VGG19_named_parameters (VGG19.__init__ num_classes))).
Proof.
  change (NoDup (parameter_names (VGG19_named_parameters (VGG19.__init__ 0)))).
  apply (bool_decide_unpack _). vm_compute. exact I.
Qed.

Lemma MobileNet_parameter_names_NoDup (self : MobileNet.t) :
  NoDup (parameter_names (MobileNet_named_parameters self)).
Proof.
  change (NoDup (parameter_names (MobileNet_named_parameters (MobileNet.__init__ 0)))).
  apply (bool_decide_unpack _). vm_compute. exact I.
Qed.

(** X10.  [model = VGG19(num_classes)] and [model = MobileNet(num_classes)]
    store every parameter of the model under its qualified name, with the
    size it is declared with, and store nothing else; the names are
    distinct; the new model is in training mode. *)
Theorem construction_stores_parameters {Data Rng : Type} `{!Backend Data Rng}
    (num_classes : N) (w : World Data Rng) :
  let stores (ps : list NamedParameter) :=
    NoDup (parameter_names ps) ∧
    (∀ q, q ∈ ps →
       ∃ d, state_dict (new_model ps w) !! p_name q = Some (mkTensor (p_size q) d)) ∧
    (∀ k, is_Some (state_dict (new_model ps w) !! k) → k ∈ parameter_names ps) ∧
    training (new_model ps w) = true in
  stores (VGG19_named_parameters (VGG19.__init__ num_classes)) ∧
  stores (MobileNet_named_parameters (MobileNet.__init__ num_classes)).
Proof.
  cbv zeta. split.
  - split; [apply VGG19_parameter_names_NoDup|].
    apply new_model_stores, VGG19_parameter_names_NoDup.
  - split; [apply MobileNet_parameter_names_NoDup|].
    apply new_model_stores, MobileNet_parameter_names_NoDup.
Qed.

Lemma construction_stores_parameters_witness :
  ∃ d, state_dict built_mobile_net !! "dw_conv3.pointwise.weight"
       = Some (mkTensor [128; 64; 1; 1] d).
Proof.
  destruct (construction_stores_parameters 1000 (world empty_session))
    as (_ & _ & Hst & _).
  apply (Hst (mkParameter "dw_conv3.pointwise.weight" [128; 64; 1; 1] true)).
  apply (list_elem_of_lookup_2 _ 8). vm_compute. reflexivity.
Defined.

(** X12.  With its weights in the store, [MobileNet.forward] runs to what
    its reading on sizes gives: it raises the same error, or returns a
    tensor of that size.  The state after [model = MobileNet(num_classes)]
    is such a state. *)
Theorem MobileNet_forward_runs_as_sizes {Data Rng : Type} `{!Backend Data Rng} :
  (∀ (self : MobileNet.t) (x : Tensor Data) (w : World Data Rng),
     present (parameter_names (MobileNet_named_parameters self)) w →
     sum_map id t_size (MobileNet_forward self x w).1
     = MobileNet_forward_size self (t_size x)) ∧
  (∀ (num_classes : N) (x : Tensor Data) (w : World Data Rng),
     let self := MobileNet.__init__ num_classes in
     sum_map id t_size
       (MobileNet_forward self x (new_model (MobileNet_named_parameters self) w)).1
     = MobileNet_forward_size self (t_size x)).
Proof.
  split.
  - intros self x w Hw. by destruct (MobileNet_forward_simulates self x w Hw).
  - intros num_classes x w self.
    assert (Hw : present (parameter_names (MobileNet_named_parameters self))
                   (new_model (MobileNet_named_parameters self) w)).
    { apply new_model_present, MobileNet_parameter_names_NoDup. }
    by destruct (MobileNet_forward_simulates self x _ Hw).
Qed.

Lemma MobileNet_forward_runs_as_sizes_witness :
  sum_map id t_size
    (MobileNet_forward (MobileNet.__init__ 1000) (mkTensor [2; 3; 50; 90] (Leaf "x"))
       built_mobile_net).1
  = inr [2; 1000] ∧
  sum_map id t_size
    (MobileNet_forward (MobileNet.__init__ 1000) (mkTensor [0; 3; 50; 90] (Leaf "x"))
       built_mobile_net).1
  = inl ViewAmbiguous.
Proof.
  destruct (@MobileNet_forward_runs_as_sizes Sym nat Recording) as [Hany _].
  assert (Hw : present (parameter_names
                          (MobileNet_named_parameters (MobileNet.__init__ 1000)))
                 built_mobile_net).
  { apply new_model_present, MobileNet_parameter_names_NoDup. }
  split.
  - exact (Hany (MobileNet.__init__ 1000) (mkTensor [2; 3; 50; 90] (Leaf "x"))
             built_mobile_net Hw).
  - exact (Hany (MobileNet.__init__ 1000) (mkTensor [0; 3; 50; 90] (Leaf "x"))
             built_mobile_net Hw).
Defined.

(** ** What a forward pass changes at all *)

Section Within.
Context {Data Rng : Type} `{!Backend Data Rng}.
Variable R : relation (World Data Rng).
Hypothesis R_refl : ∀ w, R w w.
Hypothesis R_trans : ∀ w1 w2 w3, R w1 w2 → R w2 w3 → R w1 w3.
(** The one write of a forward pass: a draw from the generator, made in
    training mode. *)
Hypothesis R_draw : ∀ w g,
  training w = true → R w (mkWorld (state_dict w) (training w) g (files w)).

Lemma within_bind {A B} (m : Exec Data Rng A) (f : A → Exec Data Rng B) :
  steps_within R m → (∀ a, steps_within R (f a)) →
  steps_within R (op_bind (Torch := Torch_exec) m f).
Proof.
  intros Hm Hf w. cbn [op_bind Torch_exec]. unfold bind. specialize (Hm w).
  destruct (m w) as [[e|a] w1]; cbn in *; [done|].
  by apply (R_trans _ w1), Hf.
Qed.

Lemma within_ret {A} (a : A) : steps_within R (op_ret (Torch := Torch_exec) a).
Proof. intros w. apply R_refl. Qed.

Lemma within_at {A} (name : string) (m : Exec Data Rng A) :
  steps_within R m → steps_within R (op_at (Torch := Torch_exec) name m).
Proof.
  intros Hm w. cbn [op_at Torch_exec]. unfold raise_in. specialize (Hm w).
  by destruct (m w).
Qed.

Lemma within_checked (k1 k2 : string) (r : Res Size)
    (f : Tensor Data → Tensor Data → Data) :
  steps_within R
    (bind (get_parameter k1) (λ weight,
     bind (get_parameter k2) (λ bias,
     bind (lift r) (λ s, ret (mkTensor s (f weight bias)))))).
Proof.
  intros w. unfold bind, get_parameter, lift, ret.
  destruct (state_dict w !! k1); [|apply R_refl].
  destruct (state_dict w !! k2); [|apply R_refl].
  destruct r; apply R_refl.
Qed.

Lemma within_conv2d (path : string) (c : Conv2d) (x : Tensor Data) :
  steps_within R (op_conv2d (Torch := Torch_exec) path c x).
Proof.
  apply (within_checked _ _ _
           (λ weight bias, k_conv2d c (t_data weight) (t_data bias) (t_data x))).
Qed.

Lemma within_linear (path : string) (l : Linear) (x : Tensor Data) :
  steps_within R (op_linear (Torch := Torch_exec) path l x).
Proof.
  apply (within_checked _ _ _
           (λ weight bias, k_linear l (t_data weight) (t_data bias) (t_data x))).
Qed.

Lemma within_lifted (r : Res Size) (d : Data) :
  steps_within R (bind (lift r) (λ s, ret (mkTensor s d))).
Proof. intros w. unfold bind, lift, ret. destruct r; apply R_refl. Qed.

Lemma within_max_pool2d (m : MaxPool2d) (x : Tensor Data) :
  steps_within R (op_max_pool2d (Torch := Torch_exec) m x).
Proof. apply within_lifted. Qed.

Lemma within_adaptive_avg_pool2d (a : AdaptiveAvgPool2d) (x : Tensor Data) :
  steps_within R (op_adaptive_avg_pool2d (Torch := Torch_exec) a x).
Proof. apply within_lifted. Qed.

Lemma within_view (shape : list Z) (x : Tensor Data) :
  steps_within R (op_view (Torch := Torch_exec) shape x).
Proof. apply within_lifted. Qed.

Lemma within_relu (x : Tensor Data) :
  steps_within R (op_relu (Torch := Torch_exec) x).
Proof. intros w. apply R_refl. Qed.

Lemma within_size (x : Tensor Data) (dim : nat) :
  steps_within R (op_size (Torch := Torch_exec) x dim).
Proof. intros w. apply R_refl. Qed.

Lemma within_dropout (d : Dropout) (x : Tensor Data) :
  steps_within R (op_dropout (Torch := Torch_exec) d x).
Proof.
  intros w. cbn [op_dropout Torch_exec]. unfold exec_dropout.
  destruct (training w) eqn:Ht; [|apply R_refl].
  destruct (k_dropout _ _ _ _) as [y g]. cbn. rewrite <- Ht. by apply R_draw.
Qed.

Lemma within_Sequential (self : Sequential) :
  ∀ (i : nat) (path : string) (x : Tensor Data),
    steps_within R (Sequential_forward_from (M := Exec Data Rng) i path self x).
Proof.
  induction self as [|l rest IH]; intros i path x; cbn [Sequential_forward_from].
  - apply within_ret.
  - apply within_bind; [|intros y; apply IH].
    apply within_at. destruct l; cbn [Layer_forward].
    + apply within_conv2d.
    + apply within_relu.
    + apply within_max_pool2d.
    + apply within_linear.
    + apply within_dropout.
Qed.

Lemma within_VGG19_forward (self : VGG19.t) (x : Tensor Data) :
  steps_within R (VGG19_forward self x).
Proof.
  unfold VGG19_forward, VGG19.forward, VGG19.features, VGG19.flatten,
    VGG19.classify, Sequential_forward.
  repeat first
    [ apply within_at
    | apply within_Sequential
    | apply within_size
    | apply within_view
    | apply within_ret
    | apply within_bind; [|intros ?] ].
Qed.

Lemma within_MobileNet_forward (self : MobileNet.t) (x : Tensor Data) :
  steps_within R (MobileNet_forward self x).
Proof.
  unfold MobileNet_forward, MobileNet.forward, MobileNet.convolutions,
    MobileNet.flatten, MobileNet.dw, DepthwiseSeparableConv.forward.
  repeat first
    [ apply within_at
    | apply within_conv2d
    | apply within_linear
    | apply within_relu
    | apply within_adaptive_avg_pool2d
    | apply within_size
    | apply within_view
    | apply within_ret
    | apply within_bind; [|intros ?] ].
Qed.

End Within.

(** X13.  A forward pass of MobileNet changes nothing in the state: not
    the weights, not the mode, not the generator.  A forward pass of VGG19
    can only move the generator, for its dropout masks, and in evaluation
    mode it changes nothing either. *)
Theorem forward_changes_generator_only {Data Rng : Type} `{!Backend Data Rng} :
  (∀ (self : MobileNet.t) (x : Tensor Data) (w : World Data Rng),
     (MobileNet_forward self x w).2 = w) ∧
  (∀ (self : VGG19.t) (x : Tensor Data) (w : World Data Rng),
     training w = false → (VGG19_forward self x w).2 = w) ∧
  (∀ (self : VGG19.t) (x : Tensor Data) (w : World Data Rng),
     same_but_generator w (VGG19_forward self x w).2).
Proof.
  split_and!.
  - intros self x w. symmetry.
    apply (within_MobileNet_forward eq); [done|by intros ??? -> ->].
  - intros self x w Ht.
    apply (within_VGG19_forward same_in_eval); [done| |by intros ?? E1 E2; congruence|done].
    intros w1 w2 w3 H12 H23 Hw1. rewrite <- (H12 Hw1). apply H23.
    by rewrite (H12 Hw1).
  - intros self x w. apply (within_VGG19_forward same_but_generator).
    + by intros ?.
    + intros w1 w2 w3 (? & ? & ?) (? & ? & ?). split_and!; congruence.
    + by intros ?? _.
Qed.

Lemma forward_changes_generator_only_witness :
  (MobileNet_forward (MobileNet.__init__ 1000) (mkTensor [1; 3; 224; 224] (Leaf "x"))
     built_mobile_net).2 = built_mobile_net ∧
  (VGG19_forward (VGG19.__init__ 1000) (mkTensor [1; 3; 224; 224] (Leaf "x"))
     (mkWorld (state_dict built_vgg_19) false 30%nat ∅)).2
  = mkWorld (state_dict built_vgg_19) false 30%nat ∅.
Proof.
  destruct (@forward_changes_generator_only Sym nat Recording) as (Hm & Hv & _).
  split.
  - apply Hm.
  - apply Hv. reflexivity.
Defined.

(** In training mode, the mode in which the notebook calls the model, the
    two dropout layers of VGG19 draw a mask each. *)
Example VGG19_forward_draws_masks :
  generator built_vgg_19 = 30%nat ∧
  generator
    (VGG19_forward (VGG19.__init__ 1000) (mkTensor [1; 3; 224; 224] (Leaf "x"))
       built_vgg_19).2 = 32%nat.
Proof. vm_compute. split; reflexivity. Qed.

(** ** The flattening view *)

Lemma VGG19_flatten_meta_unfold (x : Meta) :
  VGG19_flatten_meta x
  = match m_size x with
    | [] => inl (IndexOutOfRange 0)
    | d :: _ => view_meta [Z.of_N d; (-1)%Z] x
    end.
Proof. unfold VGG19_flatten_meta, VGG19.flatten. cbn. by destruct (m_size x). Qed.

Lemma view_size_flatten (d : N) (rest : Size) :
  d ≠ 0 → view_size [Z.of_N d; (-1)%Z] (d :: rest) = inr [d; numel rest].
Proof. intros Hd. by apply flatten_size. Qed.

(** X14.  The statement [x.view(x.size(0), -1)] of both [forward] methods
    raises on a tensor of rank 0 and on a size [(0, ...)], where [-1] cannot
    be inferred.  It takes a contiguous tensor of size [(d, ...)] with [d]
    not 0 to a contiguous [(d, m)], [m] the product of the other
    dimensions, and so keeps the number of elements; in any layout that is
    the size of the view, if the view exists.  In [torch.channels_last] the
    view of [(n, 512, 7, 7)] does not exist, and that of [(n, 1024, 1, 1)]
    does. *)
Theorem flatten_keeps_numel :
  (∀ x, MobileNet_flatten_meta x = VGG19_flatten_meta x) ∧
  (∀ l, VGG19_flatten_meta (mkMeta [] l) = inl (IndexOutOfRange 0)) ∧
  (∀ l rest, VGG19_flatten_meta (mkMeta (0 :: rest) l) = inl ViewAmbiguous) ∧
  (∀ d rest, d ≠ 0 →
     VGG19_flatten_meta (contiguous (d :: rest)) = inr (contiguous [d; numel rest]) ∧
     numel [d; numel rest] = numel (d :: rest)) ∧
  (∀ d rest l y, VGG19_flatten_meta (mkMeta (d :: rest) l) = inr y →
     m_size y = [d; numel rest]) ∧
  (∀ n, 1 ≤ n →
     VGG19_flatten_meta (mkMeta [n; 512; 7; 7] ChannelsLast) = inl ViewStride) ∧
  (∀ n, 1 ≤ n →
     MobileNet_flatten_meta (mkMeta [n; 1024; 1; 1] ChannelsLast)
     = inr (contiguous [n; 1024])).
Proof.
  split_and!.
  - reflexivity.
  - reflexivity.
  - reflexivity.
  - intros d rest Hd. split.
    + rewrite VGG19_flatten_contiguous, flatten_size by done. reflexivity.
    + unfold numel. cbn [foldr]. lia.
  - intros d rest l y. rewrite VGG19_flatten_meta_unfold. cbn [m_size].
    destruct (N.eqb_spec d 0) as [->|Hd]; [discriminate|].
    unfold view_meta. cbn [m_size m_layout]. rewrite view_size_flatten by done.
    destruct l; [by intros [= <-]| |].
    all: destruct (compute_stride _ _ _); [by intros [= <-]|discriminate].
  - intros n Hn. rewrite VGG19_flatten_meta_unfold. cbn [m_size].
    unfold view_meta. cbn [m_size m_layout]. rewrite view_size_flatten by lia.
    destruct n as [|p]; [lia|].
    destruct p; vm_compute; reflexivity.
  - intros n Hn.
    change (MobileNet_flatten_meta ?x) with (VGG19_flatten_meta x).
    rewrite VGG19_flatten_meta_unfold. cbn [m_size].
    unfold view_meta. cbn [m_size m_layout]. rewrite view_size_flatten by lia.
    destruct n as [|p]; [lia|].
    destruct p; vm_compute; rewrite ?Pos.eqb_refl; reflexivity.
Qed.

Lemma flatten_keeps_numel_witness :
  VGG19_flatten_meta (contiguous [2; 512; 7; 7]) = inr (contiguous [2; 25088]) ∧
  VGG19_flatten_meta (mkMeta [2; 512; 7; 7] ChannelsLast) = inl ViewStride ∧
  MobileNet_flatten_meta (mkMeta [2; 1024; 1; 1] ChannelsLast)
  = inr (contiguous [2; 1024]).
Proof.
  destruct flatten_keeps_numel as (_ & _ & _ & Hc & _ & Hvgg & Hmobile).
  split_and!.
  - apply (Hc 2 [512; 7; 7]). lia.
  - apply (Hvgg 2). lia.
  - apply (Hmobile 2). lia.
Defined.

(** MobileNet is called in either layout: its view is that of a tensor of
    size [(n, 1024, 1, 1)]. *)
Example MobileNet_forward_channels_last :
  MobileNet_forward_meta (MobileNet.__init__ 1000) (mkMeta [1; 3; 224; 224] ChannelsLast)
  = inr (contiguous [1; 1000]).
Proof. vm_compute. reflexivity. Qed.

(** ** Depthwise-separable convolutions of any stride *)

(** X15.  [DepthwiseSeparableConv(i, o, s)] with [i], [o] and the stride
    [s] at least 1 is built, takes a size [(n, i, h, w)], [h] and [w] at
    least 1, to [(n, o, ceil(h/s), ceil(w/s))], and raises in its depthwise
    layer on another channel count than [i]. *)
Theorem DepthwiseSeparableConv_forward_any_stride (path : string) (i o s : N) :
  1 ≤ i → 1 ≤ o → 1 ≤ s →
  DepthwiseSeparableConv.construct i o s = inr (DepthwiseSeparableConv.__init__ i o s) ∧
  (∀ n h w, 1 ≤ h → 1 ≤ w →
     DepthwiseSeparableConv_forward_size path (DepthwiseSeparableConv.__init__ i o s)
       [n; i; h; w]
     = inr [n; o; (h + s - 1) / s; (w + s - 1) / s]) ∧
  (∀ n ch h w, ch ≠ i →
     DepthwiseSeparableConv_forward_size path (DepthwiseSeparableConv.__init__ i o s)
       [n; ch; h; w]
     = inl (At "depthwise" (ChannelMismatch i ch))).
Proof.
  intros Hi Ho Hs. split_and!.
  - rewrite DepthwiseSeparableConv_construct. destruct (N.eqb_spec i 0); [lia|done].
  - intros n h w Hh Hw.
    rewrite DepthwiseSeparableConv_forward_size_ok by lia.
    assert (Hceil : ∀ a, 1 ≤ a → window_out a 3 s 1 = (a + s - 1) / s).
    { intros a Ha. unfold window_out.
      replace (a + s - 1) with (a + 2 * 1 - 3 + 1 * s) by lia.
      rewrite N.div_add by lia. reflexivity. }
    by rewrite !Hceil.
  - intros n ch h w Hch.
    unfold DepthwiseSeparableConv_forward_size, DepthwiseSeparableConv.forward,
      DepthwiseSeparableConv.__init__.
    cbn [op_bind op_ret op_at op_conv2d Torch_size
         DepthwiseSeparableConv.depthwise DepthwiseSeparableConv.pointwise].
    rewrite conv2d_size_channels; [done|cbn; lia|done|apply N.Div0.mod_same|done].
Qed.

Lemma DepthwiseSeparableConv_forward_any_stride_witness :
  DepthwiseSeparableConv_forward_size "dw" (DepthwiseSeparableConv.__init__ 8 16 3)
    [1; 8; 10; 7]
  = inr [1; 16; 4; 3] ∧
  DepthwiseSeparableConv_forward_size "dw" (DepthwiseSeparableConv.__init__ 8 16 3)
    [1; 3; 10; 7]
  = inl (At "depthwise" (ChannelMismatch 8 3)).
Proof.
  destruct (DepthwiseSeparableConv_forward_any_stride "dw" 8 16 3)
    as (_ & Hok & Hch); [lia..|].
  split.
  - apply (Hok 1 10 7); lia.
  - apply (Hch 1 3 10 7). discriminate.
Defined.

(** X17.  Without channels the module does not work, in two different
    places: [DepthwiseSeparableConv(0, o, s)] raises when it is built (its
    depthwise layer would have no group), and
    [DepthwiseSeparableConv(i, 0, s)] is built but raises in its pointwise
    layer when it is called (a weight without output channel). *)
Theorem DepthwiseSeparableConv_without_channels (path : string) :
  (∀ o s, DepthwiseSeparableConv.construct 0 o s = inl GroupsNotPositive) ∧
  (∀ i s n h w, 1 ≤ i → 1 ≤ s → 1 ≤ h → 1 ≤ w →
     let self := DepthwiseSeparableConv.__init__ i 0 s in
     DepthwiseSeparableConv.construct i 0 s = inr self ∧
     DepthwiseSeparableConv_forward_size path self [n; i; h; w]
     = inl (At "pointwise" (WeightGroups 0 1))).
Proof.
  split.
  - intros o s. by rewrite DepthwiseSeparableConv_construct.
  - intros i s n h w Hi Hs Hh Hw self. split.
    + rewrite DepthwiseSeparableConv_construct. destruct (N.eqb_spec i 0); [lia|done].
    + unfold self, DepthwiseSeparableConv_forward_size, DepthwiseSeparableConv.forward,
        DepthwiseSeparableConv.__init__.
      cbn [op_bind op_ret op_at op_conv2d Torch_size
           DepthwiseSeparableConv.depthwise DepthwiseSeparableConv.pointwise].
      rewrite conv2d_size_3x3 by (lia || apply N.Div0.mod_same). cbn [wrap].
      reflexivity.
Qed.

Lemma DepthwiseSeparableConv_without_channels_witness :
  DepthwiseSeparableConv.construct 0 16 1 = inl GroupsNotPositive ∧
  DepthwiseSeparableConv_forward_size "dw" (DepthwiseSeparableConv.__init__ 8 0 1)
    [1; 8; 10; 7]
  = inl (At "pointwise" (WeightGroups 0 1)).
Proof.
  destruct (DepthwiseSeparableConv_without_channels "dw") as [Hi Ho].
  split.
  - apply Hi.
  - apply (Ho 8 1 1 10 7); lia.
Defined.

(** ** The notebooks from the first cell to the last *)

Section Notebooks.
Context {Data Rng : Type} `{!Backend Data Rng}.

Lemma randn_keeps (size : Size) (w : World Data Rng) :
  t_size (randn size w).1 = size ∧ same_but_generator w (randn size w).2.
Proof. unfold randn. by destruct (k_randn size (generator w)). Qed.

Lemma summary_same_but_generator (forward : Tensor Data → Exec Data Rng (Tensor Data))
    (input_size : Size) (w : World Data Rng) :
  (∀ x w, same_but_generator w (forward x w).2) →
  same_but_generator w (summary forward input_size w).
Proof.
  intros Hf. unfold summary. destruct (k_rand input_size (generator w)) as [d g].
  destruct (Hf (mkTensor input_size d) (mkWorld (state_dict w) false g (files w)))
    as (Hs & _ & Hfl).
  by destruct (forward _ _).
Qed.

Lemma same_but_generator_present (ks : list string) (w w' : World Data Rng) :
  same_but_generator w w' → present ks w → present ks w'.
Proof. intros (Hs & _ & _) Hw k Hk. rewrite Hs. by apply Hw. Qed.

Section Cells.
Variable named_parameters : list NamedParameter.
Variable forward : Tensor Data → Exec Data Rng (Tensor Data).
Variable forward_size : Size → Res Size.
Hypothesis names_NoDup : NoDup (parameter_names named_parameters).
Hypothesis forward_within : ∀ x w, same_but_generator w (forward x w).2.
Hypothesis forward_simulates : ∀ x,
  simulates (parameter_names named_parameters) t_size (forward x) (forward_size (t_size x)).

Lemma run_cell_same_but_generator (c : Cell) (s : Session Data Rng) :
  c ≠ NewModel →
  same_but_generator (world s) (world (run_cell named_parameters forward c s)).
Proof.
  intros Hc. destruct c as [|input_size|size|size| |]; cbn [run_cell world]; try done.
  - by apply summary_same_but_generator.
  - destruct (randn_keeps size (world s)) as [_ (Hs & Ht & Hf)].
    destruct (randn size (world s)) as [x w1]. cbn [snd] in Hs, Ht, Hf.
    destruct (forward_within x w1) as (Hs' & Ht' & Hf').
    destruct (forward x w1) as [r w2]. cbn [snd world] in *.
    split_and!; congruence.
  - destruct (randn_keeps size (world s)) as [_ (Hs & Ht & Hf)].
    destruct (randn size (world s)) as [x w1]. cbn [snd] in Hs, Ht, Hf.
    destruct (forward_within x w1) as (Hs' & Ht' & Hf').
    destruct (forward x w1) as [[e|y] w2]; cbn [snd world] in *;
      split_and!; congruence.
Qed.

Lemma run_cells_same_but_generator (cs : list Cell) :
  Forall (λ c, c ≠ NewModel) cs →
  ∀ s : Session Data Rng,
    same_but_generator (world s) (world (run_cells named_parameters forward cs s)).
Proof.
  induction 1 as [|c cs Hc _ IH]; intros s; [done|].
  cbn. destruct (IH (run_cell named_parameters forward c s)) as (Hs & Ht & Hf).
  destruct (run_cell_same_but_generator c s Hc) as (Hs' & Ht' & Hf').
  unfold run_cells in Hs, Ht, Hf. split_and!; congruence.
Qed.

(** After the construction, and cells that do not construct again, the
    model is in training mode with its weights in the store. *)
Lemma run_cells_ready (cs : list Cell) (s : Session Data Rng) :
  Forall (λ c, c ≠ NewModel) cs →
  let w := world (run_cells named_parameters forward (NewModel :: cs) s) in
  training w = true ∧ present (parameter_names named_parameters) w.
Proof.
  intros Hcs w.
  destruct (run_cells_same_but_generator cs Hcs
              (run_cell named_parameters forward NewModel s)) as (Hs & Ht & _).
  destruct (new_model_stores named_parameters (world s) names_NoDup) as (_ & _ & Hnew).
  split.
  - unfold w. cbn [run_cells foldl]. unfold run_cells in Ht. rewrite Ht. exact Hnew.
  - intros k Hk. unfold w. cbn [run_cells foldl]. unfold run_cells in Hs. rewrite Hs.
    by apply new_model_present.
Qed.

(** [output = model(torch.randn(size))] with the weights in the store. *)
Lemma run_cell_call (size out : Size) (s : Session Data Rng) :
  present (parameter_names named_parameters) (world s) →
  forward_size size = inr out →
  ∃ y, output (run_cell named_parameters forward (Call size) s) = Some y ∧
       t_size y = out.
Proof.
  intros Hw Hout. cbn [run_cell].
  destruct (randn_keeps size (world s)) as [Hx Hw1].
  destruct (randn size (world s)) as [x w1]. cbn [fst snd] in Hx, Hw1.
  assert (H1 : present (parameter_names named_parameters) w1).
  { by eapply same_but_generator_present. }
  destruct (forward_simulates x w1 H1) as [Hr _]. rewrite Hx, Hout in Hr.
  destruct (forward x w1) as [[e|y] w2]; cbn [fst sum_map] in Hr; [discriminate|].
  exists y. split; [done|]. by injection Hr.
Qed.

End Cells.

End Notebooks.

(** X16.  Run from its first code cell to its last, in any session and
    whatever the random weights and inputs are, the MobileNet notebook
    leaves in [output] a tensor of size [(1, 1000)], the size its last
    cells display; and both notebooks end with the model still in training
    mode, the mode in which they construct and call it. *)
Theorem notebooks_run {Data Rng : Type} `{!Backend Data Rng} (s : Session Data Rng) :
  (∃ y, output (run_mobile_net s) = Some y ∧ t_size y = [1; 1000]) ∧
  training (world (run_mobile_net s)) = true ∧
  training (world (run_vgg_19 s)) = true.
Proof.
  assert (Hvw : ∀ self (x : Tensor Data) (w : World Data Rng),
            same_but_generator w (VGG19_forward self x w).2).
  { intros self x w. apply (within_VGG19_forward same_but_generator).
    - by intros ?.
    - intros w1 w2 w3 (? & ? & ?) (? & ? & ?). split_and!; congruence.
    - by intros ?? _. }
  assert (Hmw : ∀ self (x : Tensor Data) (w : World Data Rng),
            same_but_generator w (MobileNet_forward self x w).2).
  { intros self x w. apply (within_MobileNet_forward same_but_generator).
    - by intros ?.
    - intros w1 w2 w3 (? & ? & ?) (? & ? & ?). split_and!; congruence. }
  split_and!.
  - unfold run_mobile_net, mobile_net_cells.
    set (self := MobileNet.__init__ MobileNet.default_num_classes).
    set (ps := MobileNet_named_parameters self).
    set (fwd := MobileNet_forward self).
    change (run_cells ps fwd ?cs s)
      with (run_cells ps fwd [OutputShape; Argmax]
              (run_cell ps fwd (Call [1; 3; 224; 224])
                 (run_cells ps fwd [NewModel; Summary [1; 3; 224; 224]] s))).
    change (run_cells ps fwd [OutputShape; Argmax] ?s') with s'.
    apply (run_cell_call ps fwd (MobileNet_forward_size self)).
    + apply MobileNet_forward_simulates.
    + apply run_cells_ready.
      * apply MobileNet_parameter_names_NoDup.
      * apply Hmw.
      * repeat constructor; discriminate.
    + vm_compute. reflexivity.
  - unfold run_mobile_net, mobile_net_cells. apply run_cells_ready.
    + apply MobileNet_parameter_names_NoDup.
    + apply Hmw.
    + repeat constructor; discriminate.
  - unfold run_vgg_19, vgg_19_cells. apply run_cells_ready.
    + apply VGG19_parameter_names_NoDup.
    + apply Hvw.
    + repeat constructor; discriminate.
Qed.
